(** * A shallow embedding of [app.py]: the AI news digest server

    The program fetches an RSS feed, turns each [item] element into a
    dictionary with four string fields, derives a one-sentence summary
    from the titles and serves the result as JSON, with a hard-coded
    fallback digest behind a broad [except Exception].

    Layout of the development:
    - [Text]: Python [str] values as lists of Unicode code points, with
      [strip], [join] and the literals of the source;
    - [Py]: the few Python values the program handles (dictionaries keep
      their insertion order) and the outcome of a call that may raise;
    - [Xml]: the part of [xml.etree.ElementTree] that the fetcher uses;
    - [Summary]: [build_daily_summary] with its regular expression,
      [Counter] and [most_common];
    - [Server]: [fetch_ai_news], [fallback_news] and the request handler,
      written in a state-and-exception monad over the connection;
    - [Props] and [Samples]: the vocabulary of the statements, and
      concrete environments and documents to run the program on;
    - [TextFacts], [SummaryFacts], [ServerFacts]: lemmas about the model;
    - [SummaryClaims], [FetcherClaims], [HandlerClaims]: the properties
      of the specification, named C1 to C10 there;
    - [TokenFacts], [CounterFacts], [TopicFacts], [FetcherFacts],
      [HandlerFacts]: further properties of the code, named X1 to X19. *)

From Stdlib.Strings Require Import String Ascii Byte.
From Stdlib Require Import DecimalString.
From Stdlib Require Import List NArith ZArith Bool Lia.
From Stdlib Require Import Permutation Sorted.
Import ListNotations.

Set Warnings "-register-all".

(* ================================================================== *)
(** ** Text: Python strings as sequences of code points *)
(* ================================================================== *)

Module Text.

(** A Python [str] is a sequence of Unicode code points. *)
Definition char := N.
Definition str := list char.

Fixpoint str_eqb (a b : str) : bool :=
  match a, b with
  | [], [] => true
  | x :: a', y :: b' => N.eqb x y && str_eqb a' b'
  | _, _ => false
  end.

(** Literals are written as Rocq strings, whose characters are the bytes
    of the UTF-8 encoding of the source text; [utf8_decode] recovers the
    code points. *)
Fixpoint utf8_decode (bs : list N) : str :=
  match bs with
  | [] => []
  | b0 :: r0 =>
      if (b0 <? 128)%N then b0 :: utf8_decode r0
      else
        match r0 with
        | [] => [b0]
        | b1 :: r1 =>
            if (b0 <? 224)%N
            then ((b0 - 192) * 64 + (b1 - 128))%N :: utf8_decode r1
            else
              match r1 with
              | [] => [b0; b1]
              | b2 :: r2 =>
                  if (b0 <? 240)%N
                  then ((b0 - 224) * 4096 + (b1 - 128) * 64 + (b2 - 128))%N
                         :: utf8_decode r2
                  else
                    match r2 with
                    | [] => [b0; b1; b2]
                    | b3 :: r3 =>
                        ((b0 - 240) * 262144 + (b1 - 128) * 4096
                         + (b2 - 128) * 64 + (b3 - 128))%N :: utf8_decode r3
                    end
              end
        end
  end.

Definition u (s : string) : str :=
  utf8_decode (map N_of_ascii (list_ascii_of_string s)).
Arguments u s%_string.

(** [str.isspace] on one code point: the characters [str.strip()] removes
    when it is called without an argument. *)
Definition is_space (c : char) : bool :=
  ((9 <=? c) && (c <=? 13)          (* \t \n \v \f \r *)
   || (28 <=? c) && (c <=? 32)      (* FS GS RS US and the space *)
   || (c =? 133) || (c =? 160)      (* NEL, no-break space *)
   || (c =? 5760)
   || (8192 <=? c) && (c <=? 8202)
   || (c =? 8232) || (c =? 8233) || (c =? 8239) || (c =? 8287)
   || (c =? 12288))%N.

Fixpoint lstrip (s : str) : str :=
  match s with
  | [] => []
  | c :: r => if is_space c then lstrip r else s
  end.

Definition rstrip (s : str) : str := rev (lstrip (rev s)).

(** [s.strip()] *)
Definition strip (s : str) : str := rstrip (lstrip s).

(** [sep.join(parts)] for parts that are all strings. *)
Fixpoint join (sep : str) (parts : list str) : str :=
  match parts with
  | [] => []
  | [p] => p
  | p :: rest => p ++ sep ++ join sep rest
  end.

(** [str(n)] for a non-negative integer. *)
Definition str_of_nat (n : nat) : str :=
  u (NilZero.string_of_uint (Nat.to_uint n)).

(** [x or default] where [x] is a string or [None]: the empty string is
    falsy. *)
Definition or_default (x : option str) (default : str) : str :=
  match x with
  | Some (c :: r) => c :: r
  | _ => default
  end.

(** [s.replace(old, new)] for a non-empty [old]: occurrences are replaced
    from the left and do not overlap; [skip] counts the characters of an
    occurrence still to be passed over. *)
Fixpoint starts_with (p s : str) : bool :=
  match p, s with
  | [], _ => true
  | x :: p', y :: s' => N.eqb x y && starts_with p' s'
  | _ :: _, [] => false
  end.

Fixpoint replace_from (old new s : str) (skip : nat) : str :=
  match s with
  | [] => []
  | c :: r =>
      match skip with
      | S k => replace_from old new r k
      | O =>
          if starts_with old s
          then new ++ replace_from old new r (List.length old - 1)
          else c :: replace_from old new r 0
      end
  end.

Definition replace (old new s : str) : str := replace_from old new s 0.

(** The bytes of a string, [s.encode("utf-8")], for code points that are
    not surrogates. *)
Definition utf8_encode_char (c : char) : list N :=
  (if c <? 128 then [c]
   else if c <? 2048 then [192 + c / 64; 128 + c mod 64]
   else if c <? 65536 then
     [224 + c / 4096; 128 + (c / 64) mod 64; 128 + c mod 64]
   else
     [240 + c / 262144; 128 + (c / 4096) mod 64;
      128 + (c / 64) mod 64; 128 + c mod 64])%N.

Definition utf8_encode (s : str) : list N := flat_map utf8_encode_char s.

Definition hex_digit (n : N) : char :=
  (if n <? 10 then 48 + n else 55 + n)%N.

(** [urllib.parse.quote_plus]: letters, digits and [_.-~] stay, a space
    becomes [+], every other byte of the UTF-8 encoding becomes [%XX]. *)
Definition is_unreserved (b : N) : bool :=
  ((65 <=? b) && (b <=? 90) || (97 <=? b) && (b <=? 122)
   || (48 <=? b) && (b <=? 57)
   || (b =? 95) || (b =? 46) || (b =? 45) || (b =? 126))%N.

Definition quote_byte (b : N) : str :=
  (if is_unreserved b then [b]
   else if b =? 32 then [43]
   else [37; hex_digit (b / 16); hex_digit (b mod 16)])%N.

Definition quote_plus (s : str) : str := flat_map quote_byte (utf8_encode s).

End Text.

(* ================================================================== *)
(** ** Py: values, dictionaries and calls that may raise *)
(* ================================================================== *)

Module Py.
Import Text.

(** An exception object; only its class matters here.  Every class used
    below derives from [Exception], which is what the handler catches. *)
Inductive Exn : Type :=
| Exception (cls : string).

(** The outcome of evaluating an expression: a value, or a raised
    exception. *)
Inductive result (A : Type) : Type :=
| Ok (a : A)
| Raise (e : Exn).
Arguments Ok {A} a.
Arguments Raise {A} e.

Definition rbind {A B} (r : result A) (k : A -> result B) : result B :=
  match r with
  | Ok a => k a
  | Raise e => Raise e
  end.

Definition is_ok {A} (r : result A) : bool :=
  match r with Ok _ => true | Raise _ => false end.

(** The values that flow through the program ([dict[str, Any]]). *)
Inductive PyVal : Type :=
| PyNone
| PyInt (z : Z)
| PyStr (s : str)
| PyList (l : list PyVal)
| PyDict (d : list (str * PyVal)).

(** A dictionary with string keys, in insertion order. *)
Definition Dict := list (str * PyVal).

Fixpoint dict_get (d : Dict) (k : str) : option PyVal :=
  match d with
  | [] => None
  | (k', v) :: r => if str_eqb k' k then Some v else dict_get r k
  end.

(** [d[k]] *)
Definition getitem (d : Dict) (k : str) : result PyVal :=
  match dict_get d k with
  | Some v => Ok v
  | None => Raise (Exception "KeyError")
  end.

(** The strings of a sequence handed to [str.join]; anything that is not
    a string is a [TypeError]. *)
Fixpoint expect_strs (vs : list PyVal) : result (list str) :=
  match vs with
  | [] => Ok []
  | PyStr s :: r => rbind (expect_strs r) (fun ss => Ok (s :: ss))
  | _ :: _ => Raise (Exception "TypeError")
  end.

(** Evaluating a generator of fallible expressions, left to right. *)
Fixpoint traverse {A B} (f : A -> result B) (l : list A) : result (list B) :=
  match l with
  | [] => Ok []
  | a :: r =>
      rbind (f a) (fun b => rbind (traverse f r) (fun bs => Ok (b :: bs)))
  end.

(** [l[:n]] for an integer [n], negative values counting from the end. *)
Definition slice_to {A} (l : list A) (n : Z) : list A :=
  if (0 <=? n)%Z then firstn (Z.to_nat n) l
  else firstn (length l - Z.to_nat (- n)) l.

End Py.

(* ================================================================== *)
(** ** Xml: the element tree the fetcher reads *)
(* ================================================================== *)

Module Xml.
Import Text.

(** An [xml.etree.ElementTree.Element]: its tag, its text ([None] when
    the element has no character data before its first child) and its
    child elements in document order. *)
Inductive Element : Type :=
  mkElement { tag : str; text : option str; children : list Element }.

(** [e.find(name)]: the first direct child with that tag. *)
Definition find (name : str) (e : Element) : option Element :=
  List.find (fun c => str_eqb (tag c) name) (children e).

(** [e.findall(name)]: all direct children with that tag, in document
    order. *)
Definition findall (name : str) (e : Element) : list Element :=
  filter (fun c => str_eqb (tag c) name) (children e).

(** [e.findtext(name)]: the text of the first direct child with that tag,
    the empty string if that child has no text, [None] without such a
    child. *)
Definition findtext (name : str) (e : Element) : option str :=
  match find name e with
  | None => None
  | Some c => Some (match text c with None => [] | Some t => t end)
  end.

End Xml.

(* ================================================================== *)
(** ** Summary: the summary builder *)
(* ================================================================== *)

Module Summary.
Import Text Py.

Definition STOP_WORDS : list str :=
  [ u"ai"; u"artificial"; u"intelligence"; u"the"; u"a"; u"an"; u"and";
    u"to"; u"of"; u"in"; u"for"; u"on"; u"with"; u"is"; u"are"; u"at";
    u"from"; u"by"; u"as"; u"new"; u"says" ].

(** [w in STOP_WORDS] *)
Definition is_stop_word (w : str) : bool := existsb (str_eqb w) STOP_WORDS.

(** The character classes of the pattern [[A-Za-z][A-Za-z\-']+]. *)
Definition is_letter (c : char) : bool :=
  ((65 <=? c) && (c <=? 90) || (97 <=? c) && (c <=? 122))%N.

Definition is_word_char (c : char) : bool :=
  (is_letter c || (c =? 45) || (c =? 39))%N.

(** A finished candidate is a match when it has the letter and at least
    one more character; [cur] holds the candidate in reverse. *)
Definition emit (cur : str) (rest : list str) : list str :=
  match cur with
  | _ :: _ :: _ => rev cur :: rest
  | _ => rest
  end.

(** [re.findall] for that pattern, as a left-to-right scan.  A candidate
    opens at a letter and takes every following word character (the
    quantifier is greedy); the character that ends it is not a word
    character, so it opens nothing, and the scan goes on behind it. *)
Fixpoint scan_words (s : str) (cur : str) : list str :=
  match s with
  | [] => emit cur []
  | c :: r =>
      match cur with
      | [] => if is_letter c then scan_words r [c] else scan_words r []
      | _ :: _ =>
          if is_word_char c then scan_words r (c :: cur)
          else emit cur (scan_words r [])
      end
  end.

Definition re_findall_words (s : str) : list str := scan_words s [].

(** The same pattern read as the regular expression engine does: at each
    position try the letter followed by the longest run of word
    characters; on success resume behind the match, otherwise one
    character further.  [fuel] bounds the number of positions tried. *)
Fixpoint take_while (p : char -> bool) (s : str) : str * str :=
  match s with
  | [] => ([], [])
  | c :: r =>
      if p c then let (m, rest) := take_while p r in (c :: m, rest)
      else ([], s)
  end.

Definition match_here (s : str) : option (str * str) :=
  match s with
  | c :: r =>
      if is_letter c then
        match take_while is_word_char r with
        | ([], _) => None
        | (m, rest) => Some (c :: m, rest)
        end
      else None
  | [] => None
  end.

Fixpoint findall_engine (fuel : nat) (s : str) : list str :=
  match fuel with
  | O => []
  | S fuel' =>
      match s with
      | [] => []
      | _ :: r =>
          match match_here s with
          | Some (m, rest) => m :: findall_engine fuel' rest
          | None => findall_engine fuel' r
          end
      end
  end.

(** [collections.Counter]: the counts, keyed in order of first
    occurrence. *)
Fixpoint counter_add (w : str) (c : list (str * nat)) : list (str * nat) :=
  match c with
  | [] => [(w, 1)]
  | (k, n) :: r =>
      if str_eqb k w then (k, S n) :: r else (k, n) :: counter_add w r
  end.

Definition Counter (ws : list str) : list (str * nat) :=
  fold_left (fun c w => counter_add w c) ws [].

(** [most_common(n)] is [heapq.nlargest] by count, which orders like
    [sorted(..., reverse=True)[:n]]: by decreasing count, entries with
    equal counts in their order of first occurrence. *)
Fixpoint insert_by_count (x : str * nat) (l : list (str * nat))
  : list (str * nat) :=
  match l with
  | [] => [x]
  | y :: r =>
      if snd y <=? snd x then x :: y :: r else y :: insert_by_count x r
  end.

Definition sort_by_count (l : list (str * nat)) : list (str * nat) :=
  fold_right insert_by_count [] l.

Definition most_common (n : nat) (c : list (str * nat)) : list (str * nat) :=
  firstn n (sort_by_count c).

Definition NO_NEWS : str :=
  u"За последние сутки заметных AI-новостей не найдено.".

Definition DEFAULT_TOPICS : str := u"модели, продукты и внедрение AI".

Section WithLower.

(** [str.lower], the Unicode lower-casing of the interpreter. *)
Variable lower : str -> str.

(** [" ".join(item["title"] for item in news_items)]: the generator is
    consumed first (a missing key raises there), then the parts are
    checked to be strings. *)
Definition joined_titles (news_items : list Dict) : result str :=
  rbind (traverse (fun item => getitem item (u"title")) news_items)
    (fun vals => rbind (expect_strs vals)
    (fun titles => Ok (join (u" ") titles))).

(** The list [frequent] of the source. *)
Definition frequent_of (titles : str) : list str :=
  let words := re_findall_words (lower titles) in
  firstn 4
    (filter (fun w => negb (is_stop_word w))
       (map fst (most_common 6 (Counter words)))).

Definition render_summary (count : nat) (frequent : list str) : str :=
  let topics :=
    match frequent with
    | [] => DEFAULT_TOPICS
    | _ :: _ => join (u", ") frequent
    end in
  u"За последние 24 часа в AI было много активности: собрано "
    ++ str_of_nat count ++ u" ключевых новостей. "
    ++ u"Чаще всего встречаются темы: " ++ topics ++ u". "
    ++ u"Откройте карточки ниже, чтобы быстро перейти к первоисточникам.".

Definition build_daily_summary (news_items : list Dict) : result str :=
  match news_items with
  | [] => Ok NO_NEWS
  | _ :: _ =>
      rbind (joined_titles news_items) (fun titles =>
      Ok (render_summary (length news_items) (frequent_of titles)))
  end.

End WithLower.

End Summary.

(* ================================================================== *)
(** ** Server: the fetcher, the fallback and the request handler *)
(* ================================================================== *)

Module Server.
Import Text Py Xml Summary.

Definition bytes := list byte.

(** The result of [urllib.parse.urlparse]. *)
Record ParseResult : Type := mkParseResult {
  scheme : str; netloc : str; path : str;
  params : str; query : str; fragment : str }.

(** What the handler hands to the connection, oldest first. *)
Inductive Event : Type :=
| Status (code : Z)                     (* [send_response] *)
| Header (name value : str)             (* [send_header] *)
| EndHeaders                            (* [end_headers] *)
| Body (payload : bytes)                (* [wfile.write] *)
| ErrorPage (code : Z) (message : str). (* [send_error] *)

(** The state a request runs in: the output so far and how often the
    clock has been read. *)
Record World : Type := mkWorld { sent : list Event; clock_reads : nat }.

(** The interpreter, the standard library and the outside world.  Each
    field stands for the call named in its comment; where the call can
    raise, the field returns a [result]. *)
Record Env : Type := mkEnv {
  (* [s.lower()] *)
  py_lower : str -> str;
  (* [urlopen(url, timeout=12)] followed by [response.read()] *)
  urlopen_read : str -> result bytes;
  (* [ET.fromstring(raw_xml)] *)
  ET_fromstring : bytes -> result Element;
  (* [parsedate_to_datetime(s).astimezone(timezone.utc).isoformat()] *)
  parsedate_utc_isoformat : str -> result str;
  (* [datetime.now(timezone.utc).isoformat()] at the n-th reading *)
  utcnow_isoformat : nat -> str;
  (* [json.dumps(data, ensure_ascii=False).encode("utf-8")] *)
  json_dumps_utf8 : PyVal -> result bytes;
  (* [(ROOT / ... ).read_bytes()] *)
  read_bytes : list str -> result bytes;
  (* [urlparse(self.path)] *)
  urlparse : str -> result ParseResult;
  (* whether the next write to the socket raises, given the output so far *)
  socket_fault : list Event -> option Exn }.

(** Computations that read the clock, write to the connection and may
    raise. *)
Definition M (A : Type) : Type := World -> result A * World.

Definition ret {A} (a : A) : M A := fun w => (Ok a, w).

Definition bind {A B} (m : M A) (k : A -> M B) : M B :=
  fun w =>
    match m w with
    | (Ok a, w') => k a w'
    | (Raise e, w') => (Raise e, w')
    end.

Definition lift {A} (r : result A) : M A := fun w => (r, w).

(** [try: body  except Exception: handler]; what [body] did before it
    raised stays done. *)
Definition try_except {A} (body : M A) (handler : Exn -> M A) : M A :=
  fun w =>
    match body w with
    | (Ok a, w') => (Ok a, w')
    | (Raise e, w') => handler e w'
    end.

Declare Scope py_scope.
Delimit Scope py_scope with py.
Notation "x <- m ;; k" := (bind m (fun x => k))
  (at level 61, m at next level, right associativity) : py_scope.
Notation "m ;; k" := (bind m (fun _ => k))
  (at level 61, right associativity) : py_scope.
Local Open Scope py_scope.

Definition RSS_URL_before_query : str :=
  u"https://news.google.com/rss/search?q=".
Definition RSS_URL_after_query : str := u"&hl=en-US&gl=US&ceid=US:en".
(** [RSS_URL.format(query=query)] *)
Definition RSS_URL_format (query : str) : str :=
  RSS_URL_before_query ++ query ++ RSS_URL_after_query.

Definition DEFAULT_QUERY : str := u"AI OR artificial intelligence when:1d".
Definition MAX_ITEMS : Z := 10.

Definition UNAVAILABLE : str :=
  u"Онлайн-источник новостей временно недоступен, показан резервный дайджест.".

(** The dictionary literal both producers of items build. *)
Definition news_item (title url source published_at : str) : Dict :=
  [ (u"title", PyStr title); (u"url", PyStr url);
    (u"source", PyStr source); (u"published_at", PyStr published_at) ].

(** [.replace("+00:00", "Z")] *)
Definition zulu (iso : str) : str := replace (u"+00:00") (u"Z") iso.

Section WithEnv.

Variable env : Env.

(** The body of the loop in [fetch_ai_news]: one [item] element becomes
    one dictionary. *)
Definition pub_date_raw (item : Element) : str :=
  strip (or_default (findtext (u"pubDate") item) (u"")).

Definition item_published_at (item : Element) : str :=
  match parsedate_utc_isoformat env (pub_date_raw item) with
  | Ok iso => zulu iso
  | Raise _ => pub_date_raw item
  end.

Definition item_dict (item : Element) : Dict :=
  let title := strip (or_default (findtext (u"title") item) (u"")) in
  let link := strip (or_default (findtext (u"link") item) (u"")) in
  let source :=
    strip (or_default (findtext (u"source") item) (u"Unknown source")) in
  news_item title link source (item_published_at item).

(** What [fetch_ai_news] does with the parsed document. *)
Definition items_of_root (root : Element) (limit : Z) : list Dict :=
  match find (u"channel") root with
  | None => []
  | Some channel => map item_dict (slice_to (findall (u"item") channel) limit)
  end.

Definition fetch_ai_news (limit : Z) : result (list Dict) :=
  let query := quote_plus DEFAULT_QUERY in
  rbind (urlopen_read env (RSS_URL_format query)) (fun raw_xml =>
  rbind (ET_fromstring env raw_xml) (fun root =>
  Ok (items_of_root root limit))).

(** [datetime.now(timezone.utc).isoformat().replace("+00:00", "Z")] *)
Definition utc_now : M str :=
  fun w =>
    (Ok (zulu (utcnow_isoformat env (clock_reads w))),
     mkWorld (sent w) (S (clock_reads w))).

Definition fallback_items (now : str) : list Dict :=
  [ news_item
      (u"Open-source AI models continue improving multimodal reasoning")
      (u"https://news.google.com/") (u"Fallback digest") now;
    news_item
      (u"Enterprise adoption of AI copilots expands across industries")
      (u"https://news.google.com/") (u"Fallback digest") now;
    news_item
      (u"Governments discuss new frameworks for safe AI deployment")
      (u"https://news.google.com/") (u"Fallback digest") now ].

Definition fallback_news : M (list Dict) :=
  now <- utc_now ;; ret (fallback_items now).

(** The handler's output primitives.  [send_response] and [send_header]
    only fill the header buffer; [end_headers], [wfile.write] and
    [send_error] write to the socket and raise when it does. *)
Definition emit_event (ev : Event) : M unit :=
  fun w => (Ok tt, mkWorld (sent w ++ [ev]) (clock_reads w)).

Definition socket_write (ev : Event) : M unit :=
  fun w =>
    match socket_fault env (sent w) with
    | Some e => (Raise e, w)
    | None => emit_event ev w
    end.

Definition send_response (status : Z) : M unit := emit_event (Status status).
Definition send_header (name value : str) : M unit :=
  emit_event (Header name value).
Definition end_headers : M unit := socket_write EndHeaders.
Definition wfile_write (payload : bytes) : M unit :=
  socket_write (Body payload).
Definition send_error (code : Z) (message : str) : M unit :=
  socket_write (ErrorPage code message).

Definition _send_json (data : PyVal) (status : Z) : M unit :=
  payload <- lift (json_dumps_utf8 env data) ;;
  send_response status ;;
  send_header (u"Content-Type") (u"application/json; charset=utf-8") ;;
  send_header (u"Content-Length") (str_of_nat (List.length payload)) ;;
  end_headers ;;
  wfile_write payload.

Definition _serve_file (file : list str) (content_type : str) : M unit :=
  content <- lift (read_bytes env file) ;;
  send_response 200 ;;
  send_header (u"Content-Type") content_type ;;
  send_header (u"Content-Length") (str_of_nat (List.length content)) ;;
  end_headers ;;
  wfile_write content.

(** The dictionary passed to [_send_json]. *)
Definition digest (generated_at summary : str) (items : list Dict) : PyVal :=
  PyDict [ (u"generated_at", PyStr generated_at);
           (u"summary", PyStr summary);
           (u"items", PyList (map PyDict items)) ].

(** The two blocks of the [try] statement under [/api/news]. *)
Definition api_news_try : M unit :=
  items <- lift (fetch_ai_news MAX_ITEMS) ;;
  generated_at <- utc_now ;;
  summary <- lift (build_daily_summary (py_lower env) items) ;;
  _send_json (digest generated_at summary items) 200.

Definition api_news_except : M unit :=
  items <- fallback_news ;;
  generated_at <- utc_now ;;
  _send_json (digest generated_at UNAVAILABLE items) 200.

Definition do_GET (self_path : str) : M unit :=
  parsed <- lift (urlparse env self_path) ;;
  let route := path parsed in
  if str_eqb route (u"/") then
    _serve_file [u"templates"; u"index.html"] (u"text/html; charset=utf-8")
  else if str_eqb route (u"/static/styles.css") then
    _serve_file [u"static"; u"styles.css"] (u"text/css; charset=utf-8")
  else if str_eqb route (u"/api/news") then
    try_except api_news_try (fun _ => api_news_except)
  else
    send_error 404 (u"Not found").

End WithEnv.

End Server.

(* ================================================================== *)
(** ** Vocabulary of the statements *)
(* ================================================================== *)

Module Props.
Import Text Py Xml Summary Server.

(** Lower-casing of the ASCII range, which every [str.lower] performs on
    a string made of ASCII characters only. *)
Definition ascii_lower_char (c : char) : char :=
  (if (65 <=? c) && (c <=? 90) then c + 32 else c)%N.

Definition is_ascii (s : str) : bool := forallb (fun c => (c <? 128)%N) s.

Definition lower_on_ascii (lower : str -> str) : Prop :=
  forall s, is_ascii s = true -> lower s = map ascii_lower_char s.

(** The value stored under a key, when it is a string. *)
Definition field (d : Dict) (k : str) : option str :=
  match dict_get d k with
  | Some (PyStr s) => Some s
  | _ => None
  end.

(** A dictionary that has a string under ["title"]. *)
Definition has_str_title (d : Dict) : Prop :=
  exists t, dict_get d (u"title") = Some (PyStr t).

Definition title_of (d : Dict) : str :=
  match field d (u"title") with Some t => t | None => [] end.

(** The events of one complete JSON response. *)
Definition json_response (status : Z) (payload : bytes) : list Event :=
  [ Status status;
    Header (u"Content-Type") (u"application/json; charset=utf-8");
    Header (u"Content-Length") (str_of_nat (List.length payload));
    EndHeaders;
    Body payload ].

(** The socket accepts every write made after the output [before]. *)
Definition socket_ok_after (env : Env) (before : list Event) : Prop :=
  forall evs, socket_fault env (before ++ evs) = None.

(** The fallback digest can be serialised, whatever the clock shows. *)
Definition fallback_serialisable (env : Env) : Prop :=
  forall now generated_at,
    is_ok (json_dumps_utf8 env
             (digest generated_at UNAVAILABLE (fallback_items now))) = true.

(** [data[key]] and [list(data)] for a value that is a dictionary. *)
Definition entry (data : PyVal) (key : str) : option PyVal :=
  match data with
  | PyDict d => dict_get d key
  | _ => None
  end.

Definition keys (data : PyVal) : list str :=
  match data with
  | PyDict d => map fst d
  | _ => []
  end.

(** [data] is a dictionary with the keys generated_at, summary and items,
    in this order, that holds the two strings and, under ["items"], the
    list of the given dictionaries in their order. *)
Definition carries (data : PyVal) (generated_at summary : str)
    (items : list Dict) : Prop :=
  keys data = [u"generated_at"; u"summary"; u"items"]
  /\ entry data (u"generated_at") = Some (PyStr generated_at)
  /\ entry data (u"summary") = Some (PyStr summary)
  /\ entry data (u"items") = Some (PyList (map PyDict items)).

(** The routes the dispatcher knows. *)
Definition known_route (route : str) : bool :=
  str_eqb route (u"/") || str_eqb route (u"/static/styles.css")
  || str_eqb route (u"/api/news").

(** The titles of the two-item example, as the values found under
    ["title"]. *)
Definition two_titles : list (option PyVal) :=
  [ Some (PyStr (u"AI model beats benchmark"));
    Some (PyStr (u"New AI model released")) ].

(** The world after one more reading of the clock. *)
Definition tick (w : World) : World := mkWorld (sent w) (S (clock_reads w)).

(** Where the [try] block under [/api/news] can raise: in the fetch, in
    the summary builder, in the serialiser, or in one of the two writes
    to the socket.  [try_failure env w e w'] holds when the block, started
    in [w], raises [e] there and leaves the world [w']. *)
Inductive try_failure (env : Env) (w : World) : Exn -> World -> Prop :=
| fail_fetch e :
    fetch_ai_news env MAX_ITEMS = Raise e ->
    try_failure env w e w
| fail_summary items e :
    fetch_ai_news env MAX_ITEMS = Ok items ->
    build_daily_summary (py_lower env) items = Raise e ->
    try_failure env w e (tick w)
| fail_dumps items summary e :
    fetch_ai_news env MAX_ITEMS = Ok items ->
    build_daily_summary (py_lower env) items = Ok summary ->
    json_dumps_utf8 env
      (digest (zulu (utcnow_isoformat env (clock_reads w))) summary items)
      = Raise e ->
    try_failure env w e (tick w)
| fail_end_headers items summary payload e :
    fetch_ai_news env MAX_ITEMS = Ok items ->
    build_daily_summary (py_lower env) items = Ok summary ->
    json_dumps_utf8 env
      (digest (zulu (utcnow_isoformat env (clock_reads w))) summary items)
      = Ok payload ->
    socket_fault env (sent w ++ firstn 3 (json_response 200 payload))
      = Some e ->
    try_failure env w e
      (mkWorld (sent w ++ firstn 3 (json_response 200 payload))
               (S (clock_reads w)))
| fail_write items summary payload e :
    fetch_ai_news env MAX_ITEMS = Ok items ->
    build_daily_summary (py_lower env) items = Ok summary ->
    json_dumps_utf8 env
      (digest (zulu (utcnow_isoformat env (clock_reads w))) summary items)
      = Ok payload ->
    socket_fault env (sent w ++ firstn 3 (json_response 200 payload))
      = None ->
    socket_fault env (sent w ++ firstn 4 (json_response 200 payload))
      = Some e ->
    try_failure env w e
      (mkWorld (sent w ++ firstn 4 (json_response 200 payload))
               (S (clock_reads w))).

(** The URL the fetcher reads. *)
Abbreviation feed_url := (RSS_URL_format (quote_plus DEFAULT_QUERY)).

End Props.

(* ================================================================== *)
(** ** Sample environments and documents *)
(* ================================================================== *)

Module Samples.
Import Text Py Xml Summary Server Props.

Definition ascii_lower (s : str) : str := map ascii_lower_char s.

Definition leaf (name : string) (txt : string) : Element :=
  mkElement (u name) (Some (u txt)) [].

(** Two well-formed items, then one without a source and with a date
    that cannot be parsed, surrounded by blanks. *)
Definition item_a : Element :=
  mkElement (u"item") None
    [ leaf "title" "AI model beats benchmark";
      leaf "link" "https://example.org/a";
      leaf "source" "Example Wire";
      leaf "pubDate" "Mon, 02 Jan 2006 15:04:05 GMT" ].

Definition item_b : Element :=
  mkElement (u"item") None
    [ leaf "title" "New AI model released";
      leaf "link" "https://example.org/b";
      leaf "source" "   ";
      leaf "pubDate" "Tue, 03 Jan 2006 08:00:00 GMT" ].

Definition item_c : Element :=
  mkElement (u"item") None
    [ leaf "title" " Chips ";
      leaf "link" "https://example.org/c";
      leaf "pubDate" " soon " ].

Definition item_d : Element :=
  mkElement (u"item") None
    [ leaf "title" "Robots";
      mkElement (u"source") None [] ].

Definition sample_channel : Element :=
  mkElement (u"channel") None
    [ leaf "title" "feed"; item_a; item_b; item_c; item_d ].

Definition sample_rss : Element := mkElement (u"rss") None [sample_channel].

(** A document whose root has no channel. *)
Definition empty_rss : Element :=
  mkElement (u"rss") None [ leaf "title" "nothing here"; item_a ].

(** A channel with twelve items. *)
Definition long_rss : Element :=
  mkElement (u"rss") None
    [ mkElement (u"channel") None
        (repeat item_a 4 ++ repeat item_b 4 ++ repeat item_c 4) ].

(** A date parser that knows two dates. *)
Definition sample_parsedate (s : str) : result str :=
  if str_eqb s (u"Mon, 02 Jan 2006 15:04:05 GMT")
  then Ok (u"2006-01-02T15:04:05+00:00")
  else if str_eqb s (u"Tue, 03 Jan 2006 08:00:00 GMT")
  then Ok (u"2006-01-03T08:00:00+00:00")
  else Raise (Exception "ValueError").

Definition sample_clock (n : nat) : str :=
  u"2026-01-01T00:00:" ++ str_of_nat (10 + n) ++ u"+00:00".

(** Splits an origin-form request target at the first [?]. *)
Definition sample_urlparse (target : str) : result ParseResult :=
  let (p, rest) := take_while (fun c => negb (c =? 63)%N) target in
  Ok (mkParseResult [] [] p [] (tl rest) []).

Definition to_bytes (s : str) : bytes :=
  map (fun n => match Byte.of_N n with Some b => b | None => x00 end)
      (utf8_encode s).

(** A serialiser that writes the summary only. *)
Definition sample_dumps (data : PyVal) : result bytes :=
  match data with
  | PyDict (_ :: (_, PyStr summary) :: _) => Ok (to_bytes summary)
  | _ => Ok []
  end.


Definition online (root : Element) (dumps : PyVal -> result bytes) : Env :=
  mkEnv ascii_lower (fun _ => Ok []) (fun _ => Ok root) sample_parsedate
        sample_clock dumps (fun _ => Ok []) sample_urlparse (fun _ => None).

Definition offline : Env :=
  mkEnv ascii_lower (fun _ => Raise (Exception "URLError"))
        (fun _ => Ok sample_rss) sample_parsedate
        sample_clock sample_dumps (fun _ => Ok []) sample_urlparse
        (fun _ => None).


Definition world0 : World := mkWorld [] 0.

End Samples.

(* ================================================================== *)
(** ** Further vocabulary: tokens, counts and responses *)
(* ================================================================== *)

Module MoreProps.
Import Text Py Xml Summary Server Props.

(** [x in l] for strings. *)
Definition mem (x : str) (l : list str) : bool := existsb (str_eqb x) l.

(** A match of the pattern: a letter followed by at least one word
    character. *)
Definition is_token (w : str) : bool :=
  match w with
  | c :: (_ :: _) as r => is_letter c && forallb is_word_char r
  | _ => false
  end.

(** How often [w] occurs in [ws]. *)
Definition occurrences (w : str) (ws : list str) : nat :=
  length (filter (str_eqb w) ws).

(** The distinct words of [ws], each at the place of its first
    occurrence. *)
Fixpoint first_seen (ws : list str) : list str :=
  match ws with
  | [] => []
  | w :: r => w :: filter (fun x => negb (str_eqb w x)) (first_seen r)
  end.

(** The entries of a counter that have the count [k]. *)
Definition with_count (k : nat) (c : list (str * nat)) : list (str * nat) :=
  filter (fun x => snd x =? k) c.

(** The events of one complete response with a body. *)
Definition full_response (content_type : str) (content : bytes)
  : list Event :=
  [ Status 200;
    Header (u"Content-Type") content_type;
    Header (u"Content-Length") (str_of_nat (List.length content));
    EndHeaders;
    Body content ].

(** What a request that is answered leaves on the connection: one
    response with status 200, its declared length that of its body, or
    the 404 error page. *)
Definition complete_response (evs : list Event) : Prop :=
  (exists content_type content, evs = full_response content_type content)
  \/ evs = [ErrorPage 404 (u"Not found")].

(** The events the handler ever writes. *)
Definition allowed_event (ev : Event) : Prop :=
  match ev with
  | Status code => code = 200%Z
  | ErrorPage code message => code = 404%Z /\ message = u"Not found"
  | _ => True
  end.

(** A computation that, returning or raising, only adds events that
    satisfy [P] behind the output it found. *)
Definition appends_only (P : Event -> Prop) {A} (m : M A) : Prop :=
  forall w, exists evs, sent (snd (m w)) = sent w ++ evs /\ Forall P evs.

(** The rendered sentence around its two variable parts. *)
Definition sentence (count : nat) (topics : str) : str :=
  u"За последние 24 часа в AI было много активности: собрано "
    ++ str_of_nat count ++ u" ключевых новостей. "
    ++ u"Чаще всего встречаются темы: " ++ topics ++ u". "
    ++ u"Откройте карточки ниже, чтобы быстро перейти к первоисточникам.".

End MoreProps.

(* ================================================================== *)
(** ** Further samples: a disk and a stricter parser of targets *)
(* ================================================================== *)

Module MoreSamples.
Import Text Py Xml Summary Server Props Samples.

Definition page : bytes := to_bytes (u"<h1>AI digest</h1>").

(** A disk that holds the HTML document but no stylesheet. *)
Definition disk (file : list str) : result bytes :=
  match file with
  | [dir; name] =>
      if str_eqb dir (u"templates") && str_eqb name (u"index.html")
      then Ok page
      else Raise (Exception "FileNotFoundError")
  | _ => Raise (Exception "FileNotFoundError")
  end.

(** A parser that rejects a target with an unclosed bracket in its
    network location. *)
Definition strict_urlparse (target : str) : result ParseResult :=
  if starts_with (u"//[") target then Raise (Exception "ValueError")
  else sample_urlparse target.

Definition served (root : Element) : Env :=
  mkEnv ascii_lower (fun _ => Ok []) (fun _ => Ok root) sample_parsedate
        sample_clock sample_dumps disk strict_urlparse (fun _ => None).

(** A connection that breaks once the headers of the first response have
    gone out. *)
Definition breaks_at_body (evs : list Event) : option Exn :=
  match evs with
  | [_; _; _; EndHeaders] => Some (Exception "BrokenPipeError")
  | _ => None
  end.

Definition flaky : Env :=
  mkEnv ascii_lower (fun _ => Ok []) (fun _ => Ok sample_rss)
        sample_parsedate sample_clock sample_dumps disk strict_urlparse
        breaks_at_body.

End MoreSamples.

(* ================================================================== *)
(** ** Facts about text *)
(* ================================================================== *)

Module TextFacts.
Import Text.

Lemma str_eqb_refl (a : str) : str_eqb a a = true.
Proof.
  induction a as [|x a IH]; simpl; [reflexivity|].
  now rewrite N.eqb_refl, IH.
Qed.

Lemma str_eqb_eq (a b : str) : str_eqb a b = true <-> a = b.
Proof.
  split; [|intros ->; apply str_eqb_refl].
  revert b; induction a as [|x a IH]; intros [|y b]; simpl; try discriminate.
  - reflexivity.
  - intros H. apply andb_true_iff in H as [Hx Hab].
    apply N.eqb_eq in Hx. now rewrite Hx, (IH b Hab).
Qed.

Lemma str_eqb_neq (a b : str) : str_eqb a b = false <-> a <> b.
Proof.
  split.
  - intros H E. apply str_eqb_eq in E. congruence.
  - intros H. destruct (str_eqb a b) eqn:E; [|reflexivity].
    apply str_eqb_eq in E. contradiction.
Qed.

Lemma lstrip_all_space (s : str) :
  forallb is_space s = true -> lstrip s = [].
Proof.
  induction s as [|c s IH]; simpl; [reflexivity|].
  intros H. apply andb_true_iff in H as [Hc Hs]. now rewrite Hc, IH.
Qed.

Lemma strip_all_space (s : str) :
  forallb is_space s = true -> strip s = [].
Proof.
  intros H. unfold strip. now rewrite lstrip_all_space.
Qed.

End TextFacts.

(* ================================================================== *)
(** ** Facts about the summary builder *)
(* ================================================================== *)

Module SummaryFacts.
Import Text Py Summary Props TextFacts.

(** *** The scan agrees with the regular expression engine *)

Lemma take_while_length (p : char -> bool) (s : str) :
  length (snd (take_while p s)) <= length s.
Proof.
  induction s as [|c s IH]; simpl; [lia|].
  destruct (p c); [|simpl; lia].
  destruct (take_while p s) as [m rest]; simpl in *. lia.
Qed.

Lemma take_while_none (p : char -> bool) (s : str) :
  fst (take_while p s) = [] -> snd (take_while p s) = s.
Proof.
  destruct s as [|c s]; simpl; [reflexivity|].
  destruct (p c); [|reflexivity].
  destruct (take_while p s); simpl; discriminate.
Qed.

Lemma take_while_stops (p : char -> bool) (s : str) :
  match snd (take_while p s) with
  | [] => True
  | c :: _ => p c = false
  end.
Proof.
  induction s as [|c s IH]; simpl; [exact I|].
  destruct (p c) eqn:E; [|simpl; exact E].
  destruct (take_while p s) as [m rest]; simpl in *. exact IH.
Qed.

Lemma letter_is_word_char (c : char) :
  is_word_char c = false -> is_letter c = false.
Proof.
  unfold is_word_char. intros H.
  apply orb_false_iff in H as [H _]. now apply orb_false_iff in H as [H _].
Qed.

(** A candidate under way takes the longest run of word characters. *)
Lemma scan_words_candidate (s : str) (x : char) (cur : str) :
  scan_words s (x :: cur) =
  emit (rev (fst (take_while is_word_char s)) ++ x :: cur)
       (scan_words (snd (take_while is_word_char s)) []).
Proof.
  revert x cur. induction s as [|c s IH]; intros x cur.
  - reflexivity.
  - cbn [scan_words take_while]. destruct (is_word_char c) eqn:E.
    + rewrite IH. destruct (take_while is_word_char s) as [m rest].
      cbn [fst snd rev]. now rewrite <- app_assoc.
    + cbn [fst snd rev app scan_words].
      now rewrite (letter_is_word_char c E).
Qed.

Lemma scan_words_step (c : char) (r : str) :
  scan_words (c :: r) [] =
  match match_here (c :: r) with
  | Some (m, rest) => m :: scan_words rest []
  | None => scan_words r []
  end.
Proof.
  cbn [scan_words match_here]. destruct (is_letter c); [|reflexivity].
  rewrite scan_words_candidate.
  pose proof (take_while_none is_word_char r) as Hnone.
  destruct (take_while is_word_char r) as [[|y m] rest]; cbn [fst snd] in *.
  - now rewrite Hnone.
  - cbn [rev]. rewrite <- app_assoc. cbn [app].
    assert (E : exists a b t, rev m ++ [y; c] = a :: b :: t).
    { destruct (rev m) as [|a [|b t]]; cbn; eauto. }
    destruct E as (a & b & t & E).
    unfold emit. rewrite E, <- E.
    rewrite rev_app_distr. cbn [rev app]. now rewrite rev_involutive.
Qed.

Lemma match_here_length (s m rest : str) :
  match_here s = Some (m, rest) -> length rest < length s.
Proof.
  destruct s as [|c r]; cbn [match_here]; [discriminate|].
  destruct (is_letter c); [|discriminate].
  pose proof (take_while_length is_word_char r) as Hlen.
  destruct (take_while is_word_char r) as [[|y m'] rest']; [discriminate|].
  intros H; inversion H; subst. cbn in *. lia.
Qed.

(** [re.findall] as the engine runs it returns what the scan returns. *)
Lemma findall_engine_scan (fuel : nat) (s : str) :
  length s <= fuel -> findall_engine fuel s = re_findall_words s.
Proof.
  unfold re_findall_words. revert s.
  induction fuel as [|fuel IH]; intros s Hlen.
  - destruct s; [reflexivity|simpl in Hlen; lia].
  - destruct s as [|c r]; [reflexivity|].
    rewrite scan_words_step. cbn [findall_engine].
    destruct (match_here (c :: r)) as [[m rest]|] eqn:E.
    + apply match_here_length in E. rewrite IH; [reflexivity|].
      cbn in *. lia.
    + apply IH. cbn in Hlen. lia.
Qed.

(** *** Reading the titles *)

Lemma joined_titles_ok (news_items : list Dict) :
  Forall has_str_title news_items ->
  joined_titles news_items = Ok (join (u" ") (map title_of news_items)).
Proof.
  intros Hall. unfold joined_titles.
  assert (Ht : traverse (fun item => getitem item (u"title")) news_items
               = Ok (map (fun d => PyStr (title_of d)) news_items)).
  { induction Hall as [|d l [t Hd] _ IH]; [reflexivity|].
    cbn [traverse map]. unfold getitem at 1. rewrite Hd. cbn [rbind].
    rewrite IH. cbn [rbind]. unfold title_of, field. now rewrite Hd. }
  rewrite Ht. cbn [rbind].
  assert (Hs : forall l : list Dict,
             expect_strs (map (fun d => PyStr (title_of d)) l)
             = Ok (map title_of l)).
  { induction l as [|d l IH]; [reflexivity|].
    cbn [map expect_strs]. now rewrite IH. }
  now rewrite Hs.
Qed.

(** With string titles throughout, the builder returns its sentence. *)
Lemma build_daily_summary_ok (lower : str -> str) (news_items : list Dict) :
  Forall has_str_title news_items ->
  build_daily_summary lower news_items
  = Ok (match news_items with
        | [] => NO_NEWS
        | _ :: _ =>
            render_summary (length news_items)
              (frequent_of lower (join (u" ") (map title_of news_items)))
        end).
Proof.
  intros Hall. destruct news_items as [|d l]; [reflexivity|].
  unfold build_daily_summary. now rewrite (joined_titles_ok _ Hall).
Qed.

End SummaryFacts.

(* ================================================================== *)
(** ** The summary builder: claims *)
(* ================================================================== *)

Module SummaryClaims.
Import Text Py Summary Server Props Samples TextFacts SummaryFacts.

(** C8.  On every list of dictionaries that each hold a string under
    ["title"], [build_daily_summary] returns a string and raises nothing:
    the fixed sentence on the empty list, the rendered template
    otherwise.  It takes no world and, called from the handler, leaves
    the connection and the clock as they were. *)
Theorem build_daily_summary_never_raises
    (lower : str -> str) (news_items : list Dict) :
  Forall has_str_title news_items ->
  let summary :=
    match news_items with
    | [] => NO_NEWS
    | _ :: _ =>
        render_summary (length news_items)
          (frequent_of lower (join (u" ") (map title_of news_items)))
    end in
  build_daily_summary lower news_items = Ok summary
  /\ forall w : World,
       lift (build_daily_summary lower news_items) w = (Ok summary, w).
Proof.
  intros Hall summary.
  pose proof (build_daily_summary_ok lower news_items Hall) as H.
  split; [exact H|]. intros w. unfold lift. now rewrite H.
Qed.

Lemma build_daily_summary_never_raises_witness :
  Forall has_str_title
    [ news_item (u"Chips") (u"") (u"Unknown source") (u"soon");
      news_item (u"Robots") (u"") (u"Unknown source") (u"") ]
  /\ build_daily_summary ascii_lower
       [ news_item (u"Chips") (u"") (u"Unknown source") (u"soon");
         news_item (u"Robots") (u"") (u"Unknown source") (u"") ]
     = Ok (render_summary 2 [u"chips"; u"robots"])
  /\ build_daily_summary ascii_lower [] = Ok NO_NEWS.
Proof.
  assert (H : Forall has_str_title
    [ news_item (u"Chips") (u"") (u"Unknown source") (u"soon");
      news_item (u"Robots") (u"") (u"Unknown source") (u"") ]).
  { repeat constructor; eexists; reflexivity. }
  split; [exact H|]. split.
  - exact (proj1 (build_daily_summary_never_raises ascii_lower _ H)).
  - exact (proj1 (build_daily_summary_never_raises ascii_lower []
                    (Forall_nil has_str_title))).
Defined.

Lemma titles_determine (news_items : list Dict) (ts : list str) :
  map (fun d => dict_get d (u"title")) news_items
    = map (fun t => Some (PyStr t)) ts ->
  Forall has_str_title news_items /\ map title_of news_items = ts.
Proof.
  revert ts. induction news_items as [|d l IH]; intros [|t ts] H;
    try discriminate.
  - split; [constructor|reflexivity].
  - cbn [map] in H. injection H as Hd Hl.
    destruct (IH ts Hl) as [Hall Hts]. split.
    + constructor; [now exists t|exact Hall].
    + cbn [map]. unfold title_of at 1, field. now rewrite Hd, Hts.
Qed.

(** C3.  For items titled "AI model beats benchmark" and "New AI model
    released" the topic list of the summary is model, beats, benchmark,
    released: it leaves out the stop words "ai" and "new" and keeps
    "model", which occurs twice, is among the six most common tokens and
    is not a stop word. *)
Theorem topics_of_the_two_titles
    (lower : str -> str) (news_items : list Dict) :
  lower_on_ascii lower ->
  map (fun d => dict_get d (u"title")) news_items = two_titles ->
  let titles := join (u" ") (map title_of news_items) in
  let counts := Counter (re_findall_words (lower titles)) in
  let frequent := frequent_of lower titles in
  build_daily_summary lower news_items = Ok (render_summary 2 frequent)
  /\ frequent = [u"model"; u"beats"; u"benchmark"; u"released"]
  /\ ~ In (u"ai") frequent /\ ~ In (u"new") frequent
  /\ In (u"model") frequent
  /\ In (u"model", 2) (most_common 6 counts)
  /\ is_stop_word (u"model") = false
  /\ is_stop_word (u"ai") = true /\ is_stop_word (u"new") = true.
Proof.
  intros Hlower Htitles.
  destruct (titles_determine news_items
              [u"AI model beats benchmark"; u"New AI model released"]
              Htitles) as [Hall Hts].
  assert (Hlen : length news_items = 2).
  { rewrite <- (length_map title_of), Hts. reflexivity. }
  cbv zeta.
  assert (Hlow : lower (join (u" ") (map title_of news_items))
                 = u"ai model beats benchmark new ai model released").
  { rewrite Hts, Hlower by reflexivity. reflexivity. }
  assert (Hfreq : frequent_of lower (join (u" ") (map title_of news_items))
                  = [u"model"; u"beats"; u"benchmark"; u"released"]).
  { unfold frequent_of. rewrite Hlow. vm_compute. reflexivity. }
  split.
  { rewrite (build_daily_summary_ok lower news_items Hall).
    destruct news_items; [discriminate|]. now rewrite Hlen. }
  rewrite Hlow, Hfreq.
  split; [reflexivity|].
  split; [intros H; vm_compute in H; intuition discriminate|].
  split; [intros H; vm_compute in H; intuition discriminate|].
  split; [left; reflexivity|].
  split; [vm_compute; right; left; reflexivity|].
  repeat split; reflexivity.
Qed.

Lemma ascii_lower_on_ascii : lower_on_ascii ascii_lower.
Proof. intros s _. reflexivity. Qed.

Lemma topics_of_the_two_titles_witness :
  lower_on_ascii ascii_lower
  /\ map (fun d => dict_get d (u"title"))
       [ news_item (u"AI model beats benchmark") (u"a") (u"b") (u"c");
         news_item (u"New AI model released") (u"d") (u"e") (u"f") ]
     = two_titles
  /\ build_daily_summary ascii_lower
       [ news_item (u"AI model beats benchmark") (u"a") (u"b") (u"c");
         news_item (u"New AI model released") (u"d") (u"e") (u"f") ]
     = Ok (render_summary 2
             [u"model"; u"beats"; u"benchmark"; u"released"]).
Proof.
  split; [exact ascii_lower_on_ascii|]. split; [reflexivity|].
  pose proof (topics_of_the_two_titles ascii_lower
                [ news_item (u"AI model beats benchmark") (u"a") (u"b") (u"c");
                  news_item (u"New AI model released") (u"d") (u"e") (u"f") ]
                ascii_lower_on_ascii eq_refl) as H.
  cbv zeta in H. destruct H as (H1 & H2 & _).
  rewrite H2 in H1. exact H1.
Defined.

End SummaryClaims.

(* ================================================================== *)
(** ** Facts about the fetcher and the handler *)
(* ================================================================== *)

Module ServerFacts.
Import Text Py Xml Summary Server Props TextFacts.

Local Open Scope py_scope.

Section WithEnv.

Variable env : Env.

(** *** The fields of the dictionaries *)

Lemma field_title (t l s p : str) : field (news_item t l s p) (u"title") = Some t.
Proof. reflexivity. Qed.

Lemma field_source (t l s p : str) : field (news_item t l s p) (u"source") = Some s.
Proof. reflexivity. Qed.

Lemma field_published_at (t l s p : str) :
  field (news_item t l s p) (u"published_at") = Some p.
Proof. reflexivity. Qed.

Lemma item_dict_source (item : Element) :
  field (item_dict env item) (u"source")
  = Some (strip (or_default (findtext (u"source") item) (u"Unknown source"))).
Proof. reflexivity. Qed.

Lemma item_dict_published_at (item : Element) :
  field (item_dict env item) (u"published_at")
  = Some (item_published_at env item).
Proof. reflexivity. Qed.

Lemma item_dict_has_title (item : Element) : has_str_title (item_dict env item).
Proof. eexists. reflexivity. Qed.

(** *** The fetcher on a document that arrived and parsed *)

Lemma fetch_ai_news_parsed (raw : bytes) (root : Element) (limit : Z) :
  urlopen_read env feed_url = Ok raw ->
  ET_fromstring env raw = Ok root ->
  fetch_ai_news env limit = Ok (items_of_root env root limit).
Proof.
  intros Hraw Hroot. unfold fetch_ai_news.
  rewrite Hraw. cbn [rbind]. rewrite Hroot. reflexivity.
Qed.

Lemma slice_to_max_items (A : Type) (l : list A) :
  slice_to l MAX_ITEMS = firstn 10 l.
Proof. reflexivity. Qed.

(** What the fetcher returns always carries string titles, so the summary
    builder cannot raise on it. *)
Lemma fetch_ai_news_titles (limit : Z) (items : list Dict) :
  fetch_ai_news env limit = Ok items -> Forall has_str_title items.
Proof.
  unfold fetch_ai_news.
  destruct (urlopen_read env _) as [raw|]; [|discriminate].
  cbn [rbind]. destruct (ET_fromstring env raw) as [root|]; [|discriminate].
  cbn [rbind]. intros H; injection H as <-. unfold items_of_root.
  destruct (find (u"channel") root); [|constructor].
  apply Forall_forall. intros d Hd. apply in_map_iff in Hd as (it & <- & _).
  apply item_dict_has_title.
Qed.

(** *** What the digest holds *)

Lemma digest_carries (generated_at summary : str) (items : list Dict) :
  carries (digest generated_at summary items) generated_at summary items.
Proof. repeat split. Qed.

Lemma fallback_items_shape (now : str) :
  length (fallback_items now) = 3
  /\ Forall (fun d => field d (u"source") = Some (u"Fallback digest"))
       (fallback_items now).
Proof. split; [reflexivity|repeat constructor]. Qed.

(** *** Writing a response *)

(** Opens the output primitives down to the socket test. *)
Ltac run_output :=
  unfold send_response, send_header, end_headers, wfile_write, socket_write,
    emit_event;
  cbn [sent clock_reads].

(** Brings an output into the shape [before ++ [ev; ...]]. *)
Ltac flatten_output := repeat rewrite <- app_assoc; cbn [app].

Lemma socket_ok_after_app (before more : list Event) :
  socket_ok_after env before -> socket_ok_after env (before ++ more).
Proof. intros H evs. rewrite <- app_assoc. apply H. Qed.

Lemma _send_json_ok (data : PyVal) (status : Z) (payload : bytes) (w : World) :
  json_dumps_utf8 env data = Ok payload ->
  socket_ok_after env (sent w ++ [Status status]) ->
  _send_json env data status w
  = (Ok tt, mkWorld (sent w ++ json_response status payload) (clock_reads w)).
Proof.
  intros Hdumps Hsock.
  pose proof (Hsock (skipn 1 (firstn 3 (json_response status payload))))
    as Hw1.
  pose proof (Hsock (skipn 1 (firstn 4 (json_response status payload))))
    as Hw2.
  cbn [json_response firstn skipn] in Hw1, Hw2.
  rewrite <- app_assoc in Hw1, Hw2. cbn [app] in Hw1, Hw2.
  unfold _send_json, bind, lift. rewrite Hdumps.
  run_output. flatten_output.
  rewrite Hw1. cbn [sent clock_reads]. flatten_output.
  rewrite Hw2. cbn [sent clock_reads].
  repeat rewrite <- app_assoc. reflexivity.
Qed.

Lemma _send_json_raises (data : PyVal) (status : Z) (e : Exn) (w : World) :
  json_dumps_utf8 env data = Raise e ->
  _send_json env data status w = (Raise e, w).
Proof. intros H. unfold _send_json, bind, lift. now rewrite H. Qed.

(** *** The two blocks of the [try] statement *)

Lemma api_news_except_ok (w : World) :
  fallback_serialisable env ->
  socket_ok_after env (sent w ++ [Status 200]) ->
  let now := zulu (utcnow_isoformat env (clock_reads w)) in
  let generated_at := zulu (utcnow_isoformat env (S (clock_reads w))) in
  exists payload,
    json_dumps_utf8 env (digest generated_at UNAVAILABLE (fallback_items now))
      = Ok payload
    /\ api_news_except env w
       = (Ok tt, mkWorld (sent w ++ json_response 200 payload)
                         (S (S (clock_reads w)))).
Proof.
  intros Hser Hsock now generated_at.
  specialize (Hser now generated_at).
  destruct (json_dumps_utf8 env
              (digest generated_at UNAVAILABLE (fallback_items now)))
    as [payload|] eqn:Hd; [|discriminate].
  exists payload. split; [reflexivity|].
  unfold api_news_except, fallback_news, bind, utc_now, ret.
  cbn [sent clock_reads].
  fold now. fold generated_at.
  now rewrite (_send_json_ok _ 200 _
                 (mkWorld (sent w) (S (S (clock_reads w)))) Hd Hsock).
Qed.

(** Every way to raise listed in [try_failure] makes the block raise. *)
Lemma try_failure_raises (w : World) (e : Exn) (w' : World) :
  try_failure env w e w' -> api_news_try env w = (Raise e, w').
Proof.
  intros H. unfold api_news_try, bind, lift, utc_now.
  destruct H as [e Hf|items e Hf Hs|items summary e Hf Hs Hd
                |items summary payload e Hf Hs Hd Hw
                |items summary payload e Hf Hs Hd Hw1 Hw2];
    rewrite Hf; try reflexivity; rewrite Hs; try reflexivity;
    cbn [sent clock_reads]; unfold _send_json, bind, lift; rewrite Hd;
    try reflexivity;
    run_output; cbn [json_response firstn] in *; flatten_output.
  - now rewrite Hw.
  - rewrite Hw1. cbn [sent clock_reads]. flatten_output. now rewrite Hw2.
Qed.

(** And the block raises in no other way. *)
Lemma raises_try_failure (w : World) (e : Exn) (w' : World) :
  api_news_try env w = (Raise e, w') -> try_failure env w e w'.
Proof.
  unfold api_news_try, bind, lift, utc_now.
  destruct (fetch_ai_news env MAX_ITEMS) as [items|e0] eqn:Hf.
  2:{ intros H; inversion H; subst. now apply fail_fetch. }
  destruct (build_daily_summary (py_lower env) items) as [summary|e0] eqn:Hs.
  2:{ intros H; inversion H; subst. now apply fail_summary with items. }
  cbn [sent clock_reads]. unfold _send_json, bind, lift.
  destruct (json_dumps_utf8 env _) as [payload|e0] eqn:Hd.
  2:{ intros H; inversion H; subst.
      now apply fail_dumps with items summary. }
  run_output. flatten_output.
  destruct (socket_fault env (sent w ++ [_; _; _])) as [e0|] eqn:Hw1.
  { intros H; inversion H; subst.
    eapply fail_end_headers; eauto. }
  cbn [sent clock_reads]. flatten_output.
  destruct (socket_fault env (sent w ++ [_; _; _; _])) as [e0|] eqn:Hw2.
  { intros H; inversion H; subst.
    eapply fail_write; eauto. }
  discriminate.
Qed.

(** When the socket takes every write, the block either completes one
    response or raises before it has written anything. *)
Lemma api_news_try_cases (w : World) :
  socket_ok_after env (sent w) ->
  (exists payload,
      api_news_try env w
      = (Ok tt, mkWorld (sent w ++ json_response 200 payload)
                        (S (clock_reads w))))
  \/ (exists e w', api_news_try env w = (Raise e, w') /\ sent w' = sent w).
Proof.
  intros Hsock.
  destruct (api_news_try env w) as [[[]|e] w'] eqn:Htry.
  - left. revert Htry. unfold api_news_try, bind, lift, utc_now.
    destruct (fetch_ai_news env MAX_ITEMS) as [items|]; [|discriminate].
    destruct (build_daily_summary _ items) as [summary|]; [|discriminate].
    cbn [sent clock_reads].
    destruct (json_dumps_utf8 env
                (digest (zulu (utcnow_isoformat env (clock_reads w)))
                        summary items)) as [payload|e] eqn:Hd.
    + rewrite (_send_json_ok _ 200 _
                 (mkWorld (sent w) (S (clock_reads w))) Hd
                 (socket_ok_after_app _ [Status 200] Hsock)).
      intros H; injection H as <-. now exists payload.
    + now rewrite (_send_json_raises _ 200 _ _ Hd).
  - right. exists e, w'. split; [reflexivity|].
    apply raises_try_failure in Htry.
    destruct Htry as [| | | ? ? ? ? _ _ _ Hw | ? ? ? ? _ _ _ _ Hw];
      try reflexivity; rewrite Hsock in Hw; discriminate.
Qed.

(** *** Dispatch *)

Lemma do_GET_route (self_path : str) (parsed : ParseResult) (w : World) :
  urlparse env self_path = Ok parsed ->
  do_GET env self_path w =
  (if str_eqb (path parsed) (u"/") then
     _serve_file env [u"templates"; u"index.html"]
       (u"text/html; charset=utf-8")
   else if str_eqb (path parsed) (u"/static/styles.css") then
     _serve_file env [u"static"; u"styles.css"] (u"text/css; charset=utf-8")
   else if str_eqb (path parsed) (u"/api/news") then
     try_except (api_news_try env) (fun _ => api_news_except env)
   else send_error env 404 (u"Not found")) w.
Proof. intros H. unfold do_GET, bind, lift. now rewrite H. Qed.

Lemma do_GET_api_news (self_path : str) (parsed : ParseResult) (w : World) :
  urlparse env self_path = Ok parsed ->
  path parsed = u"/api/news" ->
  do_GET env self_path w
  = try_except (api_news_try env) (fun _ => api_news_except env) w.
Proof.
  intros Hp Hr. rewrite (do_GET_route _ _ w Hp), Hr. reflexivity.
Qed.

End WithEnv.

End ServerFacts.

(* ================================================================== *)
(** ** The fetcher: claims *)
(* ================================================================== *)

Module FetcherClaims.
Import Text Py Xml Summary Server Props Samples TextFacts ServerFacts.

Section WithEnv.

Variable env : Env.

(** C2.  When the feed arrives and parses and its root has a channel with
    K [item] children, the fetcher with the default limit returns the
    dictionaries of the first min(K, 10) of them, one per item and in
    document order: all K when K <= 10, the first ten otherwise. *)
Theorem fetch_keeps_document_order
    (raw : bytes) (root channel : Element) :
  urlopen_read env feed_url = Ok raw ->
  ET_fromstring env raw = Ok root ->
  find (u"channel") root = Some channel ->
  let items := findall (u"item") channel in
  exists news,
    fetch_ai_news env MAX_ITEMS = Ok news
    /\ length news = Nat.min (length items) 10
    /\ (length items <= 10 -> news = map (item_dict env) items)
    /\ (10 < length items -> news = map (item_dict env) (firstn 10 items))
    /\ forall i, i < length news ->
         nth_error news i = option_map (item_dict env) (nth_error items i).
Proof.
  intros Hraw Hroot Hch items.
  exists (map (item_dict env) (firstn 10 items)).
  split.
  { rewrite (fetch_ai_news_parsed env _ _ _ Hraw Hroot).
    unfold items_of_root. rewrite Hch. now rewrite slice_to_max_items. }
  split.
  { rewrite length_map, length_firstn. lia. }
  split.
  { intros HK. now rewrite firstn_all2. }
  split; [reflexivity|].
  intros i Hi. rewrite length_map, length_firstn in Hi.
  rewrite nth_error_map, nth_error_firstn.
  destruct (Nat.ltb_spec i 10); [reflexivity|lia].
Qed.

(** C6.  When the root of the parsed document has no [channel] child, the
    fetcher returns the empty list and does not raise. *)
Theorem no_channel_gives_no_items
    (raw : bytes) (root : Element) (limit : Z) :
  urlopen_read env feed_url = Ok raw ->
  ET_fromstring env raw = Ok root ->
  find (u"channel") root = None ->
  fetch_ai_news env limit = Ok [].
Proof.
  intros Hraw Hroot Hch.
  rewrite (fetch_ai_news_parsed env _ _ _ Hraw Hroot).
  unfold items_of_root. now rewrite Hch.
Qed.

(** C5.  An item without a [source] child, or whose first [source] child
    has no text or the empty text, gets the source "Unknown source". *)
Theorem missing_source_is_unknown (item : Element) :
  find (u"source") item = None
  \/ (exists e, find (u"source") item = Some e
                /\ (text e = None \/ text e = Some [])) ->
  field (item_dict env item) (u"source") = Some (u"Unknown source").
Proof.
  intros H. rewrite item_dict_source. unfold findtext.
  destruct H as [H|(e & H & [Ht|Ht])]; rewrite H; try rewrite Ht; reflexivity.
Qed.

(** C10.  An item whose [source] child has a text that is not empty and
    consists of white space only gets the empty source, not "Unknown
    source": the default replaces a missing or empty text only, and the
    trimming comes after it. *)
Theorem blank_source_is_empty (item e : Element) (s : str) :
  find (u"source") item = Some e ->
  text e = Some s ->
  s <> [] ->
  forallb is_space s = true ->
  field (item_dict env item) (u"source") = Some []
  /\ field (item_dict env item) (u"source") <> Some (u"Unknown source")
  /\ or_default (findtext (u"source") item) (u"Unknown source") = s.
Proof.
  intros Hfind Htext Hne Hsp. rewrite item_dict_source. unfold findtext.
  rewrite Hfind, Htext.
  assert (Hor : or_default (Some s) (u"Unknown source") = s).
  { destruct s; [contradiction|reflexivity]. }
  rewrite Hor, (strip_all_space s Hsp).
  repeat split; [discriminate].
Qed.

(** C4, as amended.  When the date of an item cannot be parsed, its
    [published_at] is the text of its [pubDate] child with the white space
    around it trimmed (the empty string without such a child or text), and
    the fetch goes on: a feed holding the item among its first ten still
    yields the item's dictionary. *)
Theorem unparsed_date_keeps_trimmed_text (item : Element) (e : Exn) :
  parsedate_utc_isoformat env (pub_date_raw item) = Raise e ->
  field (item_dict env item) (u"published_at")
  = Some (strip (or_default (findtext (u"pubDate") item) []))
  /\ forall raw root channel,
       urlopen_read env feed_url = Ok raw ->
       ET_fromstring env raw = Ok root ->
       find (u"channel") root = Some channel ->
       In item (firstn 10 (findall (u"item") channel)) ->
       exists news,
         fetch_ai_news env MAX_ITEMS = Ok news
         /\ In (item_dict env item) news.
Proof.
  intros Hparse. split.
  - rewrite item_dict_published_at. unfold item_published_at.
    now rewrite Hparse.
  - intros raw root channel Hraw Hroot Hch Hin.
    exists (map (item_dict env) (firstn 10 (findall (u"item") channel))).
    split.
    + rewrite (fetch_ai_news_parsed env _ _ _ Hraw Hroot).
      unfold items_of_root. now rewrite Hch.
    + now apply in_map.
Qed.

End WithEnv.

Lemma fetch_keeps_document_order_witness :
  urlopen_read (online long_rss sample_dumps) feed_url = Ok []
  /\ ET_fromstring (online long_rss sample_dumps) [] = Ok long_rss
  /\ (exists channel,
        find (u"channel") long_rss = Some channel
        /\ length (findall (u"item") channel) = 12
        /\ exists news,
             fetch_ai_news (online long_rss sample_dumps) MAX_ITEMS = Ok news
             /\ length news = 10)
  /\ (exists news,
        fetch_ai_news (online sample_rss sample_dumps) MAX_ITEMS = Ok news
        /\ length news = 4).
Proof.
  split; [reflexivity|]. split; [reflexivity|]. split.
  - exists (mkElement (u"channel") None
              (repeat item_a 4 ++ repeat item_b 4 ++ repeat item_c 4)).
    split; [reflexivity|]. split; [reflexivity|].
    destruct (fetch_keeps_document_order (online long_rss sample_dumps)
                [] long_rss _ eq_refl eq_refl eq_refl)
      as (news & Hnews & Hlen & _).
    exists news. split; [exact Hnews|]. rewrite Hlen. reflexivity.
  - destruct (fetch_keeps_document_order (online sample_rss sample_dumps)
                [] sample_rss sample_channel eq_refl eq_refl eq_refl)
      as (news & Hnews & Hlen & _).
    exists news. split; [exact Hnews|]. rewrite Hlen. reflexivity.
Defined.

Lemma no_channel_gives_no_items_witness :
  urlopen_read (online empty_rss sample_dumps) feed_url = Ok []
  /\ ET_fromstring (online empty_rss sample_dumps) [] = Ok empty_rss
  /\ find (u"channel") empty_rss = None
  /\ fetch_ai_news (online empty_rss sample_dumps) MAX_ITEMS = Ok [].
Proof.
  split; [reflexivity|]. split; [reflexivity|]. split; [reflexivity|].
  exact (no_channel_gives_no_items (online empty_rss sample_dumps)
           [] empty_rss MAX_ITEMS eq_refl eq_refl eq_refl).
Defined.

Lemma missing_source_is_unknown_witness :
  find (u"source") item_c = None
  /\ field (item_dict offline item_c) (u"source") = Some (u"Unknown source")
  /\ (exists e, find (u"source") item_d = Some e /\ text e = None)
  /\ field (item_dict offline item_d) (u"source") = Some (u"Unknown source").
Proof.
  split; [reflexivity|]. split.
  - apply (missing_source_is_unknown offline item_c). left. reflexivity.
  - split.
    + exists (mkElement (u"source") None []). split; reflexivity.
    + apply (missing_source_is_unknown offline item_d). right.
      exists (mkElement (u"source") None []).
      split; [reflexivity|left; reflexivity].
Defined.

Lemma blank_source_is_empty_witness :
  find (u"source") item_b = Some (leaf "source" "   ")
  /\ text (leaf "source" "   ") = Some (u"   ")
  /\ u"   " <> []
  /\ forallb is_space (u"   ") = true
  /\ field (item_dict offline item_b) (u"source") = Some [].
Proof.
  split; [reflexivity|]. split; [reflexivity|].
  split; [discriminate|]. split; [reflexivity|].
  apply (blank_source_is_empty offline item_b (leaf "source" "   ")
           (u"   ")); [reflexivity|reflexivity|discriminate|reflexivity].
Defined.

(** C4, as stated, fails on a date with blanks around it: the text of the
    [pubDate] child is " soon ", neither it nor its trimmed form parses,
    and [published_at] is "soon". *)
Lemma published_at_is_not_the_raw_text :
  findtext (u"pubDate") item_c = Some (u" soon ")
  /\ parsedate_utc_isoformat offline (u" soon ")
     = Raise (Exception "ValueError")
  /\ parsedate_utc_isoformat offline (pub_date_raw item_c)
     = Raise (Exception "ValueError")
  /\ field (item_dict offline item_c) (u"published_at") = Some (u"soon")
  /\ field (item_dict offline item_c) (u"published_at")
     <> Some (u" soon ").
Proof.
  split; [reflexivity|]. split; [reflexivity|]. split; [reflexivity|].
  split; [reflexivity|]. vm_compute. discriminate.
Qed.

Lemma unparsed_date_keeps_trimmed_text_witness :
  parsedate_utc_isoformat offline (pub_date_raw item_c)
  = Raise (Exception "ValueError")
  /\ field (item_dict offline item_c) (u"published_at") = Some (u"soon")
  /\ exists news,
       fetch_ai_news (online sample_rss sample_dumps) MAX_ITEMS = Ok news
       /\ In (item_dict (online sample_rss sample_dumps) item_c) news.
Proof.
  split; [reflexivity|]. split.
  - exact (proj1 (unparsed_date_keeps_trimmed_text offline item_c
                    (Exception "ValueError") eq_refl)).
  - apply (proj2 (unparsed_date_keeps_trimmed_text
                    (online sample_rss sample_dumps) item_c
                    (Exception "ValueError") eq_refl)
             [] sample_rss sample_channel eq_refl eq_refl eq_refl).
    right. right. left. reflexivity.
Defined.

End FetcherClaims.

(* ================================================================== *)
(** ** The request handler: claims *)
(* ================================================================== *)

Module HandlerClaims.
Import Text Py Xml Summary Server Props Samples TextFacts ServerFacts.

Section WithEnv.

Variable env : Env.

(** C1.  A GET whose path is [/api/news] is answered with status 200,
    whether the fetch succeeds or raises, as long as the socket takes the
    writes and the fallback digest can be serialised: the handler returns
    normally after writing exactly one JSON response with status 200.  When
    the fetch raises, the exception is dropped and the body is the
    serialisation of the fallback digest: a dictionary that holds, under
    ["items"], the three fallback items, each with source "Fallback
    digest", and, under ["summary"], the fixed message. *)
Theorem api_news_always_200
    (self_path : str) (parsed : ParseResult) (w : World) :
  urlparse env self_path = Ok parsed ->
  path parsed = u"/api/news" ->
  socket_ok_after env (sent w) ->
  fallback_serialisable env ->
  exists data payload w',
    do_GET env self_path w = (Ok tt, w')
    /\ json_dumps_utf8 env data = Ok payload
    /\ sent w' = sent w ++ json_response 200 payload
    /\ forall e, fetch_ai_news env MAX_ITEMS = Raise e ->
         let now := zulu (utcnow_isoformat env (clock_reads w)) in
         let generated_at :=
           zulu (utcnow_isoformat env (S (clock_reads w))) in
         data = digest generated_at UNAVAILABLE (fallback_items now)
         /\ carries data generated_at UNAVAILABLE (fallback_items now)
         /\ length (fallback_items now) = 3
         /\ Forall (fun d => field d (u"source") = Some (u"Fallback digest"))
              (fallback_items now).
Proof.
  intros Hparse Hroute Hsock Hser.
  rewrite (do_GET_api_news env _ _ w Hparse Hroute). unfold try_except.
  destruct (fetch_ai_news env MAX_ITEMS) as [items|e0] eqn:Hfetch.
  - (* the fetch succeeded *)
    destruct (api_news_try env w) as [[[]|e1] w1] eqn:Htry.
    + (* and so did the rest of the block *)
      revert Htry. unfold api_news_try, bind, lift, utc_now.
      rewrite Hfetch.
      destruct (build_daily_summary _ items) as [summary|]; [|discriminate].
      cbn [sent clock_reads].
      destruct (json_dumps_utf8 env
                  (digest (zulu (utcnow_isoformat env (clock_reads w)))
                          summary items)) as [payload|e] eqn:Hd.
      * rewrite (_send_json_ok env _ 200 _
                   (mkWorld (sent w) (S (clock_reads w))) Hd
                   (socket_ok_after_app env _ [Status 200] Hsock)).
        intros H; injection H as <-.
        eexists _, payload, _. split; [reflexivity|].
        split; [exact Hd|]. split; [reflexivity|]. discriminate.
      * now rewrite (_send_json_raises env _ 200 _ _ Hd).
    + (* something after the fetch raised *)
      destruct (api_news_try_cases env w Hsock) as [[p Hok]|(e & w' & Hr & Hs)];
        [congruence|].
      rewrite Htry in Hr. injection Hr as <- <-.
      destruct (api_news_except_ok env w1 Hser) as (payload & Hd & Hex).
      { rewrite Hs. apply socket_ok_after_app, Hsock. }
      rewrite Hex. eexists _, payload, _. split; [reflexivity|].
      split; [exact Hd|]. cbn [sent]. rewrite Hs.
      split; [reflexivity|]. discriminate.
  - (* the fetch raised *)
    rewrite (try_failure_raises env w e0 w (fail_fetch env w e0 Hfetch)).
    destruct (api_news_except_ok env w Hser) as (payload & Hd & Hex).
    { apply socket_ok_after_app, Hsock. }
    rewrite Hex. eexists _, payload, _. split; [reflexivity|].
    split; [exact Hd|]. split; [reflexivity|].
    intros e _. cbv zeta. split; [reflexivity|].
    split; [apply digest_carries|]. apply fallback_items_shape.
Qed.


(** C7.  The handler looks at the path component of the request target
    only: two targets whose parse results have the same path are handled
    alike, whatever their query strings.  A path other than [/],
    [/static/styles.css] and [/api/news] is answered with
    [send_error(404, "Not found")], which the socket, when it takes the
    write, records as the 404 error page. *)
Theorem routing_by_path_only
    (target1 target2 : str) (parsed1 parsed2 : ParseResult) (w : World) :
  urlparse env target1 = Ok parsed1 ->
  urlparse env target2 = Ok parsed2 ->
  path parsed1 = path parsed2 ->
  do_GET env target1 w = do_GET env target2 w
  /\ (known_route (path parsed1) = false ->
      do_GET env target1 w = send_error env 404 (u"Not found") w
      /\ (socket_fault env (sent w) = None ->
          do_GET env target1 w
          = (Ok tt, mkWorld (sent w ++ [ErrorPage 404 (u"Not found")])
                            (clock_reads w)))).
Proof.
  intros H1 H2 Hpath.
  rewrite (do_GET_route env _ _ w H1), (do_GET_route env _ _ w H2), Hpath.
  split; [reflexivity|].
  intros Hknown. unfold known_route in Hknown.
  apply orb_false_iff in Hknown as [Hknown Hc].
  apply orb_false_iff in Hknown as [Ha Hb].
  rewrite Ha, Hb, Hc. split; [reflexivity|].
  intros Hsock. unfold send_error, socket_write. now rewrite Hsock.
Qed.

End WithEnv.

Lemma api_news_always_200_witness :
  urlparse offline (u"/api/news?lang=en")
  = Ok (mkParseResult [] [] (u"/api/news") [] (u"lang=en") [])
  /\ socket_ok_after offline (sent world0)
  /\ fallback_serialisable offline
  /\ fetch_ai_news offline MAX_ITEMS = Raise (Exception "URLError")
  /\ exists data payload w',
       do_GET offline (u"/api/news?lang=en") world0 = (Ok tt, w')
       /\ json_dumps_utf8 offline data = Ok payload
       /\ sent w' = json_response 200 payload
       /\ entry data (u"summary") = Some (PyStr UNAVAILABLE)
       /\ entry data (u"items")
          = Some (PyList
                    (map PyDict (fallback_items (zulu (sample_clock 0))))).
Proof.
  assert (Hsock : socket_ok_after offline (sent world0))
    by (intros evs; reflexivity).
  assert (Hser : fallback_serialisable offline)
    by (intros t0 t1; reflexivity).
  split; [reflexivity|]. split; [exact Hsock|]. split; [exact Hser|].
  split; [reflexivity|].
  destruct (api_news_always_200 offline (u"/api/news?lang=en")
              (mkParseResult [] [] (u"/api/news") [] (u"lang=en") [])
              world0 eq_refl eq_refl Hsock Hser)
    as (data & payload & w' & Hget & Hd & Hsent & Hfb).
  destruct (Hfb (Exception "URLError") eq_refl)
    as (_ & (_ & _ & Hsummary & Hitems) & _).
  exists data, payload, w'. split; [exact Hget|].
  split; [exact Hd|]. split; [exact Hsent|].
  split; [exact Hsummary|exact Hitems].
Defined.



Lemma routing_by_path_only_witness :
  urlparse offline (u"/nonexistent?page=2")
  = Ok (mkParseResult [] [] (u"/nonexistent") [] (u"page=2") [])
  /\ urlparse offline (u"/nonexistent")
     = Ok (mkParseResult [] [] (u"/nonexistent") [] [] [])
  /\ known_route (u"/nonexistent") = false
  /\ do_GET offline (u"/nonexistent?page=2") world0
     = do_GET offline (u"/nonexistent") world0
  /\ do_GET offline (u"/nonexistent?page=2") world0
     = (Ok tt, mkWorld [ErrorPage 404 (u"Not found")] 0).
Proof.
  split; [reflexivity|]. split; [reflexivity|]. split; [reflexivity|].
  destruct (routing_by_path_only offline
              (u"/nonexistent?page=2") (u"/nonexistent")
              (mkParseResult [] [] (u"/nonexistent") [] (u"page=2") [])
              (mkParseResult [] [] (u"/nonexistent") [] [] [])
              world0 eq_refl eq_refl eq_refl) as (Hsame & H404).
  split; [exact Hsame|].
  exact (proj2 (H404 eq_refl) eq_refl).
Defined.

End HandlerClaims.

(* ================================================================== *)
(** ** The library functions of the model on known inputs *)
(* ================================================================== *)

Module ModelChecks.
Import Text Py Xml Summary Server Props Samples.

Example feed_url_value :
  feed_url
  = u"https://news.google.com/rss/search?q=AI+OR+artificial+intelligence+when%3A1d&hl=en-US&gl=US&ceid=US:en".
Proof. vm_compute. reflexivity. Qed.

Example zulu_utc : zulu (u"2006-01-02T15:04:05+00:00") = u"2006-01-02T15:04:05Z".
Proof. vm_compute. reflexivity. Qed.

Example replace_does_not_overlap :
  replace (u"+00:00") (u"Z") (u"a+00:00+00:00b+00:0") = u"aZZb+00:0".
Proof. vm_compute. reflexivity. Qed.

Example strip_unicode_blanks :
  strip ([160; 9] ++ u"a b" ++ [8232; 12288])%N = u"a b".
Proof. vm_compute. reflexivity. Qed.

Example findall_hyphens_and_apostrophes :
  re_findall_words (u"a-b x 'tis it's -ab c- don't--x")
  = [u"a-b"; u"tis"; u"it's"; u"ab"; u"c-"; u"don't--x"].
Proof. vm_compute. reflexivity. Qed.

Example most_common_keeps_first_seen :
  most_common 6
    (Counter [u"b"; u"a"; u"c"; u"a"; u"b"; u"d"; u"e"; u"f"; u"g"])
  = [(u"b", 2); (u"a", 2); (u"c", 1); (u"d", 1); (u"e", 1); (u"f", 1)].
Proof. vm_compute. reflexivity. Qed.

Example slice_to_negative : slice_to [1; 2; 3; 4] (-1) = [1; 2; 3].
Proof. reflexivity. Qed.

Example sample_fetch_sources :
  option_map (map (fun d => field d (u"source")))
    (match fetch_ai_news (online sample_rss sample_dumps) MAX_ITEMS with
     | Ok news => Some news
     | Raise _ => None
     end)
  = Some [ Some (u"Example Wire"); Some []; Some (u"Unknown source");
           Some (u"Unknown source") ].
Proof. vm_compute. reflexivity. Qed.

Example sample_fetch_dates :
  option_map (map (fun d => field d (u"published_at")))
    (match fetch_ai_news (online sample_rss sample_dumps) MAX_ITEMS with
     | Ok news => Some news
     | Raise _ => None
     end)
  = Some [ Some (u"2006-01-02T15:04:05Z"); Some (u"2006-01-03T08:00:00Z");
           Some (u"soon"); Some [] ].
Proof. vm_compute. reflexivity. Qed.

End ModelChecks.

(* ================================================================== *)
(** ** Tokens and counts *)
(* ================================================================== *)

Module TokenFacts.
Import Text Py Summary Props MoreProps TextFacts SummaryFacts.

Lemma take_while_all (p : char -> bool) (s : str) :
  forallb p (fst (take_while p s)) = true.
Proof.
  induction s as [|c s IH]; cbn [take_while]; [reflexivity|].
  destruct (p c) eqn:E; [|reflexivity].
  destruct (take_while p s) as [m rest]. cbn in *. now rewrite E, IH.
Qed.

Lemma match_here_token (s m rest : str) :
  match_here s = Some (m, rest) -> is_token m = true.
Proof.
  destruct s as [|c r]; cbn [match_here]; [discriminate|].
  destruct (is_letter c) eqn:Hc; [|discriminate].
  pose proof (take_while_all is_word_char r) as Hall.
  destruct (take_while is_word_char r) as [[|y m'] rest']; [discriminate|].
  intros H; inversion H; subst. cbn [fst] in Hall.
  cbn [is_token]. now rewrite Hc, Hall.
Qed.

Lemma findall_engine_tokens (fuel : nat) (s : str) :
  Forall (fun w => is_token w = true) (findall_engine fuel s).
Proof.
  revert s. induction fuel as [|fuel IH]; intros s; [constructor|].
  destruct s as [|c r]; [constructor|]. cbn [findall_engine].
  destruct (match_here (c :: r)) as [[m rest]|] eqn:E; [|apply IH].
  constructor; [exact (match_here_token _ _ _ E)|apply IH].
Qed.

(** X1.  Every word [re.findall] returns for the pattern starts with an
    ASCII letter, goes on with letters, hyphens and apostrophes only, and
    has at least two characters: one-letter words, digits and non-ASCII
    text never become tokens. *)
Theorem tokens_are_words (s : str) :
  Forall (fun w => is_token w = true /\ 2 <= length w) (re_findall_words s).
Proof.
  rewrite <- (findall_engine_scan (length s) s (le_n _)).
  eapply Forall_impl; [|apply findall_engine_tokens].
  intros w Hw. split; [exact Hw|].
  destruct w as [|a [|b t]]; try discriminate. cbn. lia.
Qed.

(** X2.  The left-to-right scan that models [re.findall] returns exactly
    the matches of the pattern as the engine finds them: at each position
    the letter with the longest run of word characters behind it, the
    search resuming behind a match or one character further. *)
Theorem scan_is_leftmost_longest (s : str) :
  re_findall_words s = findall_engine (length s) s.
Proof. symmetry. apply findall_engine_scan. apply le_n. Qed.

End TokenFacts.

Module CounterFacts.
Import Text Py Summary Props MoreProps TextFacts SummaryFacts.

Lemma str_eqb_sym (a b : str) : str_eqb a b = str_eqb b a.
Proof.
  destruct (str_eqb a b) eqn:E.
  - apply str_eqb_eq in E. subst. symmetry. apply str_eqb_refl.
  - destruct (str_eqb b a) eqn:E'; [|reflexivity].
    apply str_eqb_eq in E'. subst. now rewrite str_eqb_refl in E.
Qed.

Lemma mem_In (x : str) (l : list str) : mem x l = true <-> In x l.
Proof.
  unfold mem. rewrite existsb_exists. split.
  - intros (y & Hy & E). apply str_eqb_eq in E. now subst.
  - intros H. exists x. split; [exact H|apply str_eqb_refl].
Qed.

Lemma mem_not_In (x : str) (l : list str) : mem x l = false <-> ~ In x l.
Proof.
  rewrite <- mem_In. destruct (mem x l); split; congruence.
Qed.

Lemma occurrences_cons (k w : str) (ws : list str) :
  occurrences k (w :: ws)
  = if str_eqb k w then S (occurrences k ws) else occurrences k ws.
Proof. unfold occurrences. cbn [filter]. now destruct (str_eqb k w). Qed.

Lemma occurrences_pos (w : str) (ws : list str) :
  In w ws -> 1 <= occurrences w ws.
Proof.
  induction ws as [|x ws IH]; [contradiction|]. intros [->|H].
  - rewrite occurrences_cons, str_eqb_refl. lia.
  - rewrite occurrences_cons. specialize (IH H). destruct (str_eqb w x); lia.
Qed.

(** *** One more word for the counter *)

Lemma counter_add_known (w : str) (c : list (str * nat)) :
  NoDup (map fst c) -> In w (map fst c) ->
  counter_add w c
  = map (fun x => (fst x, if str_eqb (fst x) w then S (snd x) else snd x)) c.
Proof.
  induction c as [|[k n] c IH]; [contradiction|].
  cbn [map fst]. intros Hnd Hin. inversion Hnd as [|? ? Hk Hnd']; subst.
  cbn [counter_add map fst snd]. destruct (str_eqb k w) eqn:E.
  - apply str_eqb_eq in E. subst k. f_equal.
    rewrite <- (map_id c) at 1. apply map_ext_in. intros [k' n'] Hin'.
    cbn [fst snd]. destruct (str_eqb k' w) eqn:E'; [|reflexivity].
    apply str_eqb_eq in E'. subst k'. exfalso. apply Hk.
    change w with (fst (w, n')). now apply in_map.
  - f_equal. apply IH; [exact Hnd'|].
    destruct Hin as [->|Hin]; [|exact Hin].
    now rewrite str_eqb_refl in E.
Qed.

Lemma counter_add_new (w : str) (c : list (str * nat)) :
  ~ In w (map fst c) -> counter_add w c = c ++ [(w, 1)].
Proof.
  induction c as [|[k n] c IH]; [reflexivity|].
  cbn [map fst]. intros Hin. cbn [counter_add app].
  destruct (str_eqb k w) eqn:E.
  - apply str_eqb_eq in E. subst. exfalso. apply Hin. now left.
  - f_equal. apply IH. intros H. apply Hin. now right.
Qed.

Lemma counter_add_NoDup (w : str) (c : list (str * nat)) :
  NoDup (map fst c) -> NoDup (map fst (counter_add w c)).
Proof.
  intros Hnd. destruct (mem w (map fst c)) eqn:E.
  - apply mem_In in E. rewrite (counter_add_known w c Hnd E).
    rewrite map_map. cbn [fst]. exact Hnd.
  - apply mem_not_In in E. rewrite (counter_add_new w c E).
    rewrite map_app. cbn [map fst].
    apply NoDup_app; [exact Hnd|repeat constructor; intros []|].
    intros x Hx [<-|[]]. contradiction.
Qed.

(** *** The whole counter *)

Lemma filter_filter_str (p q : str -> bool) (l : list str) :
  filter p (filter q l) = filter (fun x => q x && p x) l.
Proof.
  induction l as [|x l IH]; [reflexivity|]. cbn [filter].
  destruct (q x); cbn [filter andb]; [destruct (p x)|]; now rewrite IH.
Qed.

Lemma fold_counter_add (ws : list str) (acc : list (str * nat)) :
  NoDup (map fst acc) ->
  fold_left (fun c w => counter_add w c) ws acc
  = map (fun x => (fst x, snd x + occurrences (fst x) ws)) acc
    ++ map (fun w => (w, occurrences w ws))
         (filter (fun w => negb (mem w (map fst acc))) (first_seen ws)).
Proof.
  revert acc. induction ws as [|w ws IH]; intros acc Hnd.
  - cbn [fold_left first_seen filter map]. rewrite app_nil_r.
    rewrite <- (map_id acc) at 1. apply map_ext. intros [k n].
    cbn. f_equal. unfold occurrences. cbn. lia.
  - cbn [fold_left first_seen]. rewrite (IH _ (counter_add_NoDup w acc Hnd)).
    destruct (mem w (map fst acc)) eqn:E.
    + (* a word seen before *)
      pose proof E as Hin. apply mem_In in Hin.
      rewrite (counter_add_known w acc Hnd Hin).
      rewrite !map_map. cbn [fst snd filter]. rewrite E. cbn [negb].
      f_equal.
      * apply map_ext. intros [k n]. cbn [fst snd].
        rewrite occurrences_cons. destruct (str_eqb k w); f_equal; lia.
      * rewrite filter_filter_str.
        assert (Hf : forall l : list str,
                   filter (fun x => negb (str_eqb w x)
                                    && negb (mem x (map fst acc))) l
                   = filter (fun x => negb (mem x (map fst acc))) l).
        { intros l. apply filter_ext. intros x.
          destruct (str_eqb w x) eqn:Ex; [|reflexivity].
          apply str_eqb_eq in Ex. subst x. now rewrite E. }
        rewrite Hf. apply map_ext_in. intros x Hx.
        apply filter_In in Hx as [_ Hx]. rewrite occurrences_cons.
        destruct (str_eqb x w) eqn:Ex; [|reflexivity].
        apply str_eqb_eq in Ex. subst x. now rewrite E in Hx.
    + (* a new word *)
      pose proof E as Hnin. apply mem_not_In in Hnin.
      rewrite (counter_add_new w acc Hnin).
      rewrite !map_app. cbn [map fst snd filter]. rewrite E. cbn [negb map].
      rewrite <- app_assoc. cbn [app]. f_equal.
      * apply map_ext_in. intros [k n] Hk. cbn [fst snd].
        rewrite occurrences_cons. destruct (str_eqb k w) eqn:Ek; [|reflexivity].
        apply str_eqb_eq in Ek. subst k. exfalso. apply Hnin.
        change w with (fst (w, n)). now apply in_map.
      * rewrite occurrences_cons, str_eqb_refl. cbn [plus]. f_equal.
        rewrite filter_filter_str.
        assert (Hf : forall l : list str,
                   filter (fun x => negb (mem x (map fst acc ++ [w]))) l
                   = filter (fun x => negb (str_eqb w x)
                                      && negb (mem x (map fst acc))) l).
        { intros l. apply filter_ext. intros x. unfold mem.
          rewrite existsb_app. cbn [existsb]. rewrite orb_false_r.
          rewrite (str_eqb_sym x w).
          destruct (existsb (str_eqb x) (map fst acc)), (str_eqb w x);
            reflexivity. }
        rewrite Hf. apply map_ext_in. intros x Hx.
        apply filter_In in Hx as [_ Hx]. rewrite occurrences_cons.
        rewrite (str_eqb_sym x w).
        destruct (str_eqb w x); [discriminate|reflexivity].
Qed.

Lemma Counter_first_seen (ws : list str) :
  Counter ws = map (fun w => (w, occurrences w ws)) (first_seen ws).
Proof.
  unfold Counter. rewrite (fold_counter_add ws [] (NoDup_nil _)).
  cbn [map app]. f_equal.
  rewrite <- (filter_ext (fun _ => true)) by reflexivity.
  clear. induction (first_seen ws) as [|x l IH]; [reflexivity|].
  cbn [filter]. now rewrite IH.
Qed.

Lemma Counter_keys (ws : list str) : map fst (Counter ws) = first_seen ws.
Proof.
  rewrite Counter_first_seen, map_map. cbn [fst]. apply map_id.
Qed.

Lemma first_seen_In (ws : list str) (x : str) :
  In x (first_seen ws) <-> In x ws.
Proof.
  induction ws as [|w ws IH]; [reflexivity|]. cbn [first_seen In].
  rewrite filter_In, IH. split.
  - intros [H|[H _]]; [now left|now right].
  - intros [H|H]; [now left|].
    destruct (str_eqb w x) eqn:E.
    + left. now apply str_eqb_eq.
    + right. split; [exact H|reflexivity].
Qed.

Lemma first_seen_NoDup (ws : list str) : NoDup (first_seen ws).
Proof.
  induction ws as [|w ws IH]; [constructor|]. cbn [first_seen].
  constructor; [|now apply NoDup_filter].
  intros H. apply filter_In in H as [_ H]. now rewrite str_eqb_refl in H.
Qed.

(** X3.  [Counter(words)] holds every distinct word of the list once, in
    the order of first occurrence, each with the number of its
    occurrences, which is at least one. *)
Theorem Counter_counts_in_order_of_first_occurrence (ws : list str) :
  Counter ws = map (fun w => (w, occurrences w ws)) (first_seen ws)
  /\ NoDup (map fst (Counter ws))
  /\ (forall w, In w (map fst (Counter ws)) <-> In w ws)
  /\ (forall w n, In (w, n) (Counter ws) ->
        n = occurrences w ws /\ 1 <= n).
Proof.
  split; [apply Counter_first_seen|].
  split; [rewrite Counter_keys; apply first_seen_NoDup|].
  split; [intros w; rewrite Counter_keys; apply first_seen_In|].
  intros w n. rewrite Counter_first_seen. intros H.
  apply in_map_iff in H as (x & E & Hx). injection E as -> <-.
  split; [reflexivity|]. apply occurrences_pos. now apply first_seen_In.
Qed.

(** *** Sorting by count *)

Lemma insert_by_count_perm (x : str * nat) (l : list (str * nat)) :
  Permutation (insert_by_count x l) (x :: l).
Proof.
  induction l as [|y l IH]; [reflexivity|]. cbn [insert_by_count].
  destruct (snd y <=? snd x); [reflexivity|].
  rewrite IH. apply perm_swap.
Qed.

Lemma sort_by_count_perm (l : list (str * nat)) :
  Permutation (sort_by_count l) l.
Proof.
  induction l as [|x l IH]; [reflexivity|]. cbn [sort_by_count fold_right].
  fold (sort_by_count l). rewrite insert_by_count_perm. now constructor.
Qed.

(** [ranks_before x y]: [y] may follow [x] in a ranking by count. *)
Lemma insert_by_count_sorted (x : str * nat) (l : list (str * nat)) :
  StronglySorted (fun a b => snd b <= snd a) l ->
  StronglySorted (fun a b => snd b <= snd a) (insert_by_count x l).
Proof.
  induction l as [|y l IH]; intros Hs.
  - repeat constructor.
  - inversion Hs as [|? ? Hl Hy]; subst. cbn [insert_by_count].
    destruct (Nat.leb_spec (snd y) (snd x)) as [Hle|Hlt].
    + constructor; [exact Hs|]. constructor; [exact Hle|].
      eapply Forall_impl; [|exact Hy]. cbn. intros z Hz. lia.
    + constructor; [now apply IH|].
      apply Forall_forall. intros z Hz.
      apply (Permutation_in _ (insert_by_count_perm x l)) in Hz.
      destruct Hz as [<-|Hz]; [lia|].
      rewrite Forall_forall in Hy. now apply Hy.
Qed.

Lemma sort_by_count_sorted (l : list (str * nat)) :
  StronglySorted (fun a b => snd b <= snd a) (sort_by_count l).
Proof.
  induction l as [|x l IH]; [constructor|]. cbn [sort_by_count fold_right].
  fold (sort_by_count l). now apply insert_by_count_sorted.
Qed.

Lemma insert_by_count_with_count (k : nat) (x : str * nat)
    (l : list (str * nat)) :
  with_count k (insert_by_count x l)
  = if snd x =? k then x :: with_count k l else with_count k l.
Proof.
  unfold with_count. induction l as [|y l IH]; [reflexivity|].
  cbn [insert_by_count]. destruct (Nat.leb_spec (snd y) (snd x)) as [Hle|Hlt].
  - reflexivity.
  - cbn [filter]. rewrite IH.
    destruct (Nat.eqb_spec (snd x) k) as [Ex|Ex]; [|reflexivity].
    destruct (Nat.eqb_spec (snd y) k) as [Ey|Ey]; [lia|reflexivity].
Qed.

(** The sort is stable: entries with the same count keep their order. *)
Lemma sort_by_count_stable (k : nat) (l : list (str * nat)) :
  with_count k (sort_by_count l) = with_count k l.
Proof.
  induction l as [|x l IH]; [reflexivity|]. cbn [sort_by_count fold_right].
  fold (sort_by_count l). rewrite insert_by_count_with_count, IH.
  unfold with_count. cbn [filter]. reflexivity.
Qed.

Lemma StronglySorted_app_inv {A} (R : A -> A -> Prop) (l1 l2 : list A) :
  StronglySorted R (l1 ++ l2) ->
  StronglySorted R l1
  /\ forall x y, In x l1 -> In y l2 -> R x y.
Proof.
  induction l1 as [|a l1 IH]; cbn [app]; intros Hs.
  - split; [constructor|intros x y []].
  - inversion Hs as [|? ? Hl Ha]; subst. destruct (IH Hl) as [Hs1 Hr].
    apply Forall_app in Ha as [Ha1 Ha2]. split.
    + now constructor.
    + intros x y [<-|Hx] Hy; [|now apply Hr].
      rewrite Forall_forall in Ha2. now apply Ha2.
Qed.

(** X4.  [most_common(n)] returns the [min(n, len)] highest-ranked
    entries of the counter in order of non-increasing count: together with
    the entries it leaves out they make up the counter, and no entry left
    out has a larger count than one returned. *)
Theorem most_common_takes_the_largest (n : nat) (c : list (str * nat)) :
  length (most_common n c) = Nat.min n (length c)
  /\ StronglySorted (fun a b => snd b <= snd a) (most_common n c)
  /\ exists rest,
       Permutation (most_common n c ++ rest) c
       /\ forall x y, In x (most_common n c) -> In y rest -> snd y <= snd x.
Proof.
  unfold most_common.
  pose proof (sort_by_count_sorted c) as Hs.
  rewrite <- (firstn_skipn n (sort_by_count c)) in Hs.
  apply StronglySorted_app_inv in Hs as [Hs1 Hr].
  split.
  { rewrite length_firstn. now rewrite (Permutation_length (sort_by_count_perm c)). }
  split; [exact Hs1|].
  exists (skipn n (sort_by_count c)). split; [|exact Hr].
  rewrite firstn_skipn. apply sort_by_count_perm.
Qed.

(** X5.  Ties are broken by first occurrence: among the words that occur
    [k] times, the ranking by count of [Counter(words)] keeps the order in
    which the words first appear. *)
Theorem equal_counts_rank_by_first_occurrence (k : nat) (ws : list str) :
  with_count k (sort_by_count (Counter ws))
  = map (fun w => (w, k))
      (filter (fun w => occurrences w ws =? k) (first_seen ws)).
Proof.
  rewrite sort_by_count_stable, Counter_first_seen. unfold with_count.
  induction (first_seen ws) as [|x l IH]; [reflexivity|].
  cbn [map filter snd]. destruct (Nat.eqb_spec (occurrences x ws) k) as [E|E].
  - cbn [map]. now rewrite IH, E.
  - exact IH.
Qed.

End CounterFacts.

(* ================================================================== *)
(** ** The summary builder: topics and errors *)
(* ================================================================== *)

Module TopicFacts.
Import Text Py Summary Server Props Samples MoreProps.
Import TextFacts SummaryFacts TokenFacts CounterFacts.

Lemma firstn_In {A} (n : nat) (l : list A) (x : A) :
  In x (firstn n l) -> In x l.
Proof.
  intros H. rewrite <- (firstn_skipn n l). apply in_or_app. now left.
Qed.

Lemma firstn_NoDup {A} (n : nat) (l : list A) :
  NoDup l -> NoDup (firstn n l).
Proof.
  intros H. rewrite <- (firstn_skipn n l) in H.
  now apply NoDup_app_remove_r in H.
Qed.

Lemma most_common_keys_NoDup (n : nat) (ws : list str) :
  NoDup (map fst (most_common n (Counter ws))).
Proof.
  unfold most_common. rewrite <- firstn_map. apply firstn_NoDup.
  apply (Permutation_NoDup
           (Permutation_map fst
              (Permutation_sym (sort_by_count_perm (Counter ws))))).
  rewrite Counter_keys. apply first_seen_NoDup.
Qed.

Lemma most_common_keys_In (n : nat) (ws : list str) (w : str) :
  In w (map fst (most_common n (Counter ws))) -> In w ws.
Proof.
  unfold most_common. rewrite <- firstn_map. intros H.
  apply firstn_In in H.
  apply (Permutation_in _
           (Permutation_map fst (sort_by_count_perm (Counter ws)))) in H.
  rewrite Counter_keys in H. now apply first_seen_In.
Qed.

Lemma re_findall_words_tokens (s : str) :
  Forall (fun w => is_token w = true) (re_findall_words s).
Proof.
  rewrite <- (findall_engine_scan (length s) s (le_n _)).
  apply findall_engine_tokens.
Qed.

(** X6.  The topics of a summary are at most four, pairwise different,
    never stop words, and each is a token of the lower-cased titles. *)
Theorem topics_are_few_distinct_content_words
    (lower : str -> str) (titles : str) :
  length (frequent_of lower titles) <= 4
  /\ NoDup (frequent_of lower titles)
  /\ Forall (fun w => is_stop_word w = false
                      /\ is_token w = true
                      /\ In w (re_findall_words (lower titles)))
       (frequent_of lower titles).
Proof.
  unfold frequent_of. cbv zeta.
  split; [apply firstn_le_length|].
  split.
  { apply firstn_NoDup, NoDup_filter, most_common_keys_NoDup. }
  apply Forall_forall. intros w Hw. apply firstn_In in Hw.
  apply filter_In in Hw as [Hin Hstop].
  apply most_common_keys_In in Hin.
  split; [now apply negb_true_iff in Hstop|].
  split; [|exact Hin].
  pose proof (re_findall_words_tokens (lower titles)) as Htok.
  rewrite Forall_forall in Htok. now apply Htok.
Qed.

Lemma render_summary_placeholder (count : nat) :
  render_summary count [] = sentence count DEFAULT_TOPICS.
Proof. unfold render_summary, sentence. exact eq_refl. Qed.

(** X7.  When the six most common tokens of the titles are all stop
    words -- in particular when the titles hold no token at all -- the
    summary names the placeholder topics, whatever other words the titles
    contain. *)
Theorem placeholder_when_top_six_are_stop_words
    (lower : str -> str) (news_items : list Dict) :
  news_items <> [] ->
  Forall has_str_title news_items ->
  Forall (fun w => is_stop_word w = true)
    (map fst
       (most_common 6
          (Counter
             (re_findall_words
                (lower (join (u" ") (map title_of news_items))))))) ->
  build_daily_summary lower news_items
  = Ok (sentence (length news_items) DEFAULT_TOPICS).
Proof.
  intros Hne Hall Hstop.
  rewrite (build_daily_summary_ok lower news_items Hall).
  destruct news_items as [|d l]; [contradiction|].
  rewrite <- render_summary_placeholder. do 2 f_equal.
  unfold frequent_of. cbv zeta.
  set (top := map fst _) in *.
  assert (E : filter (fun w => negb (is_stop_word w)) top = []).
  { clearbody top. induction Hstop as [|w t Hw _ IH]; [reflexivity|].
    cbn [filter]. now rewrite Hw. }
  now rewrite E.
Qed.

Lemma placeholder_when_top_six_are_stop_words_witness :
  [ news_item (u"The of in") (u"a") (u"b") (u"c");
    news_item (u"On to at Robots") (u"d") (u"e") (u"f") ] <> []
  /\ map fst
       (most_common 6
          (Counter
             (re_findall_words
                (ascii_lower (u"The of in On to at Robots")))))
     = [u"the"; u"of"; u"in"; u"on"; u"to"; u"at"]
  /\ In (u"robots")
       (re_findall_words (ascii_lower (u"The of in On to at Robots")))
  /\ build_daily_summary ascii_lower
       [ news_item (u"The of in") (u"a") (u"b") (u"c");
         news_item (u"On to at Robots") (u"d") (u"e") (u"f") ]
     = Ok (sentence 2 DEFAULT_TOPICS).
Proof.
  split; [discriminate|]. split; [vm_compute; reflexivity|].
  split; [vm_compute; tauto|].
  apply (placeholder_when_top_six_are_stop_words ascii_lower
           [ news_item (u"The of in") (u"a") (u"b") (u"c");
             news_item (u"On to at Robots") (u"d") (u"e") (u"f") ]).
  - discriminate.
  - repeat constructor; eexists; reflexivity.
  - vm_compute. repeat constructor.
Defined.

(** *** Dictionaries without a usable title *)

Lemma traverse_title_missing (news_items : list Dict) :
  Exists (fun d => dict_get d (u"title") = None) news_items ->
  traverse (fun item => getitem item (u"title")) news_items
  = Raise (Exception "KeyError").
Proof.
  induction news_items as [|d l IH]; intros H; [inversion H|].
  cbn [traverse]. unfold getitem at 1.
  destruct (dict_get d (u"title")) as [v|] eqn:E; [|reflexivity].
  cbn [rbind]. rewrite IH; [reflexivity|].
  inversion H as [? ? Hd|? ? Hl]; subst; [congruence|exact Hl].
Qed.

Lemma traverse_title_present (news_items : list Dict) :
  Forall (fun d => dict_get d (u"title") <> None) news_items ->
  traverse (fun item => getitem item (u"title")) news_items
  = Ok (map (fun d => match dict_get d (u"title") with
                      | Some v => v
                      | None => PyNone
                      end) news_items).
Proof.
  induction 1 as [|d l Hd _ IH]; [reflexivity|].
  cbn [traverse map]. unfold getitem at 1.
  destruct (dict_get d (u"title")) as [v|]; [|contradiction].
  cbn [rbind]. now rewrite IH.
Qed.

Lemma expect_strs_not_str (vs : list PyVal) :
  Exists (fun v => forall s, v <> PyStr s) vs ->
  expect_strs vs = Raise (Exception "TypeError").
Proof.
  induction vs as [|v vs IH]; intros H; [inversion H|].
  inversion H as [? ? Hv|? ? Hvs]; subst.
  - destruct v; try reflexivity. exfalso. now apply (Hv s).
  - destruct v; try reflexivity. cbn [expect_strs]. now rewrite IH.
Qed.

(** X8.  On a non-empty list the builder raises [KeyError] as soon as
    one dictionary has no ["title"], wherever it stands, and [TypeError]
    when every dictionary has one but some title is not a string. *)
Theorem summary_raises_on_unusable_titles
    (lower : str -> str) (news_items : list Dict) :
  (Exists (fun d => dict_get d (u"title") = None) news_items ->
   build_daily_summary lower news_items = Raise (Exception "KeyError"))
  /\ (Forall (fun d => dict_get d (u"title") <> None) news_items ->
      Exists (fun d => forall s, dict_get d (u"title") <> Some (PyStr s))
        news_items ->
      build_daily_summary lower news_items = Raise (Exception "TypeError")).
Proof.
  split.
  - intros H. destruct news_items as [|d l]; [inversion H|].
    unfold build_daily_summary, joined_titles.
    now rewrite (traverse_title_missing _ H).
  - intros Hall H. destruct news_items as [|d l]; [inversion H|].
    unfold build_daily_summary, joined_titles.
    rewrite (traverse_title_present _ Hall). cbn [rbind].
    rewrite expect_strs_not_str; [reflexivity|].
    apply Exists_exists in H as (x & Hx & Hbad).
    apply Exists_exists.
    exists (match dict_get x (u"title") with Some v => v | None => PyNone end).
    split.
    + apply in_map_iff. now exists x.
    + rewrite Forall_forall in Hall. specialize (Hall x Hx).
      destruct (dict_get x (u"title")) as [v|]; [|contradiction].
      intros s ->. now apply (Hbad s).
Qed.

Lemma summary_raises_on_unusable_titles_witness :
  build_daily_summary ascii_lower
    [ [(u"title", PyInt 3)]; [(u"url", PyStr (u"https://example.org/"))] ]
  = Raise (Exception "KeyError")
  /\ build_daily_summary ascii_lower
       [ [(u"title", PyStr (u"Chips"))]; [(u"title", PyNone)] ]
     = Raise (Exception "TypeError").
Proof.
  split.
  - apply (proj1 (summary_raises_on_unusable_titles ascii_lower
             [ [(u"title", PyInt 3)];
               [(u"url", PyStr (u"https://example.org/"))] ])).
    right. left. reflexivity.
  - apply (proj2 (summary_raises_on_unusable_titles ascii_lower
             [ [(u"title", PyStr (u"Chips"))]; [(u"title", PyNone)] ])).
    + repeat constructor; discriminate.
    + right. left. intros s. discriminate.
Defined.

Lemma traverse_title_ext (l1 l2 : list Dict) :
  map (fun d => dict_get d (u"title")) l1
  = map (fun d => dict_get d (u"title")) l2 ->
  traverse (fun item => getitem item (u"title")) l1
  = traverse (fun item => getitem item (u"title")) l2.
Proof.
  revert l2. induction l1 as [|a l1 IH]; intros [|b l2] H; try discriminate.
  - reflexivity.
  - cbn [map] in H. injection H as Hab Hl. cbn [traverse].
    unfold getitem at 1 3. rewrite Hab. now rewrite (IH l2 Hl).
Qed.

(** X9.  The summary depends on the titles only: two lists whose
    dictionaries agree, position by position, on what they hold under
    ["title"] give the same outcome, be it a sentence or an exception,
    whatever their other fields. *)
Theorem summary_depends_on_titles_only
    (lower : str -> str) (l1 l2 : list Dict) :
  map (fun d => dict_get d (u"title")) l1
  = map (fun d => dict_get d (u"title")) l2 ->
  build_daily_summary lower l1 = build_daily_summary lower l2.
Proof.
  intros H.
  assert (Hlen : length l1 = length l2).
  { rewrite <- (length_map (fun d => dict_get d (u"title")) l1), H.
    apply length_map. }
  destruct l1 as [|a l1], l2 as [|b l2]; try discriminate; [reflexivity|].
  unfold build_daily_summary, joined_titles.
  now rewrite (traverse_title_ext _ _ H), Hlen.
Qed.

Lemma summary_depends_on_titles_only_witness :
  map (fun d => dict_get d (u"title"))
    [ news_item (u"Chips") (u"a") (u"b") (u"c") ]
  = map (fun d => dict_get d (u"title"))
      [ [(u"id", PyInt 7); (u"title", PyStr (u"Chips"))] ]
  /\ build_daily_summary ascii_lower
       [ news_item (u"Chips") (u"a") (u"b") (u"c") ]
     = build_daily_summary ascii_lower
         [ [(u"id", PyInt 7); (u"title", PyStr (u"Chips"))] ].
Proof.
  split; [reflexivity|].
  apply (summary_depends_on_titles_only ascii_lower
           [ news_item (u"Chips") (u"a") (u"b") (u"c") ]
           [ [(u"id", PyInt 7); (u"title", PyStr (u"Chips"))] ]).
  reflexivity.
Defined.

End TopicFacts.

(* ================================================================== *)
(** ** The fetcher: limits, errors and trimmed fields *)
(* ================================================================== *)

Module FetcherFacts.
Import Text Py Xml Summary Server Props Samples MoreProps.
Import TextFacts ServerFacts.

(** *** What [strip] removes *)

Lemma lstrip_split (s : str) :
  exists pre, s = pre ++ lstrip s /\ forallb is_space pre = true.
Proof.
  induction s as [|c s (pre & E & Hpre)]; [now exists []|].
  cbn [lstrip]. destruct (is_space c) eqn:Hc.
  - exists (c :: pre). cbn [app forallb]. now rewrite Hc, Hpre, <- E.
  - now exists [].
Qed.

Lemma lstrip_head (s : str) (c : char) (r : str) :
  lstrip s = c :: r -> is_space c = false.
Proof.
  induction s as [|x s IH]; cbn [lstrip]; [discriminate|].
  destruct (is_space x) eqn:Hx; [exact IH|].
  intros H; injection H as <- _. exact Hx.
Qed.

Lemma lstrip_fixed (s : str) :
  (forall c r, s = c :: r -> is_space c = false) -> lstrip s = s.
Proof.
  destruct s as [|c r]; [reflexivity|]. intros H. cbn [lstrip].
  now rewrite (H c r eq_refl).
Qed.

Lemma forallb_rev {A} (p : A -> bool) (l : list A) :
  forallb p (rev l) = forallb p l.
Proof.
  induction l as [|x l IH]; [reflexivity|]. cbn [rev forallb].
  rewrite forallb_app, IH. cbn [forallb]. rewrite andb_true_r.
  apply andb_comm.
Qed.

Lemma rstrip_split (s : str) :
  exists post, s = rstrip s ++ post /\ forallb is_space post = true.
Proof.
  destruct (lstrip_split (rev s)) as (pre & E & Hpre).
  exists (rev pre). split; [|now rewrite forallb_rev].
  unfold rstrip. rewrite <- rev_app_distr, <- E. symmetry.
  apply rev_involutive.
Qed.

Lemma rstrip_last (s : str) (c : char) (r : str) :
  rev (rstrip s) = c :: r -> is_space c = false.
Proof. unfold rstrip. rewrite rev_involutive. apply lstrip_head. Qed.

Lemma rstrip_keeps_head (s : str) (c : char) (r : str) :
  (forall c' r', s = c' :: r' -> is_space c' = false) ->
  rstrip s = c :: r -> is_space c = false.
Proof.
  intros Hs E. destruct (rstrip_split s) as (post & Es & _).
  rewrite E in Es. cbn [app] in Es. exact (Hs _ _ Es).
Qed.

(** [strip] takes white space, and nothing else, off both ends. *)
Lemma strip_spec (s : str) :
  (exists pre post,
      s = pre ++ strip s ++ post
      /\ forallb is_space pre = true /\ forallb is_space post = true)
  /\ (forall c r, strip s = c :: r -> is_space c = false)
  /\ (forall c r, rev (strip s) = c :: r -> is_space c = false).
Proof.
  unfold strip. split; [|split].
  - destruct (lstrip_split s) as (pre & E & Hpre).
    destruct (rstrip_split (lstrip s)) as (post & E' & Hpost).
    exists pre, post. split; [|now split]. now rewrite <- E', <- E.
  - intros c r. apply rstrip_keeps_head. apply lstrip_head.
  - apply rstrip_last.
Qed.

Lemma strip_idempotent (s : str) : strip (strip s) = strip s.
Proof.
  destruct (strip_spec s) as (_ & Hhead & _).
  unfold strip at 1. rewrite (lstrip_fixed (strip s) Hhead).
  unfold strip, rstrip. rewrite rev_involutive.
  rewrite (lstrip_fixed (lstrip (rev (lstrip s)))); [reflexivity|].
  apply lstrip_head.
Qed.

Section WithEnv.

Variable env : Env.

(** X10.  Every dictionary the fetcher builds has the four keys title,
    url, source and published_at, in this order.  Its title, url and
    source are the text of the [title], [link] and [source] child (the
    empty string, or "Unknown source", without such a text) with the
    white space at both ends, and nothing else, taken off. *)
Theorem item_text_fields_are_trimmed
    (item : Element) (key tag default : str) :
  In (key, tag, default)
     [ (u"title", u"title", []); (u"url", u"link", []);
       (u"source", u"source", u"Unknown source") ] ->
  map fst (item_dict env item)
  = [u"title"; u"url"; u"source"; u"published_at"]
  /\ exists v pre post,
       field (item_dict env item) key = Some v
       /\ or_default (findtext tag item) default = pre ++ v ++ post
       /\ forallb is_space pre = true /\ forallb is_space post = true
       /\ strip v = v
       /\ (forall c r, v = c :: r -> is_space c = false)
       /\ (forall c r, rev v = c :: r -> is_space c = false).
Proof.
  intros Hin. split; [reflexivity|].
  assert (H : field (item_dict env item) key
              = Some (strip (or_default (findtext tag item) default))).
  { destruct Hin as [E|[E|[E|[]]]]; injection E as <- <- <-; reflexivity. }
  destruct (strip_spec (or_default (findtext tag item) default))
    as ((pre & post & E & Hpre & Hpost) & Hhead & Hlast).
  exists (strip (or_default (findtext tag item) default)), pre, post.
  split; [exact H|]. split; [exact E|]. split; [exact Hpre|].
  split; [exact Hpost|]. split; [apply strip_idempotent|].
  split; [exact Hhead|exact Hlast].
Qed.

(** X11.  With any limit, the fetcher returns a prefix of the item
    dictionaries of the channel, in document order: the first [limit] of
    them (all, if there are fewer) for a limit that is not negative, and
    all but the last [-limit] for a negative one, as a slice does. *)
Theorem fetch_returns_a_prefix
    (raw : bytes) (root channel : Element) (limit : Z) :
  urlopen_read env feed_url = Ok raw ->
  ET_fromstring env raw = Ok root ->
  find (u"channel") root = Some channel ->
  exists news rest,
    fetch_ai_news env limit = Ok news
    /\ map (item_dict env) (findall (u"item") channel) = news ++ rest
    /\ ((0 <= limit)%Z ->
        length news
        = Nat.min (Z.to_nat limit) (length (findall (u"item") channel)))
    /\ ((limit < 0)%Z ->
        length news
        = length (findall (u"item") channel) - Z.to_nat (- limit)).
Proof.
  intros Hraw Hroot Hch.
  rewrite (fetch_ai_news_parsed env _ _ limit Hraw Hroot).
  unfold items_of_root. rewrite Hch.
  set (items := findall (u"item") channel).
  assert (Hpre : forall n,
             map (item_dict env) items
             = map (item_dict env) (firstn n items)
               ++ map (item_dict env) (skipn n items)).
  { intros n. now rewrite <- map_app, firstn_skipn. }
  unfold slice_to. destruct (Z.leb_spec 0 limit) as [Hpos|Hneg].
  - eexists _, _. split; [reflexivity|]. split; [apply Hpre|].
    split; [|lia]. intros _. now rewrite length_map, length_firstn.
  - eexists _, _. split; [reflexivity|]. split; [apply Hpre|].
    split; [lia|]. intros _. rewrite length_map, length_firstn. lia.
Qed.

Lemma zulu_utc_offset (body : str) :
  forallb (fun c => negb (c =? 43)%N) body = true ->
  zulu (body ++ u"+00:00") = body ++ u"Z".
Proof.
  unfold zulu, replace.
  assert (E : u"+00:00" = [43; 48; 48; 58; 48; 48]%N)
    by (vm_compute; reflexivity).
  assert (Z : u"Z" = [90]%N) by (vm_compute; reflexivity).
  rewrite E, Z. clear E Z.
  induction body as [|c body IH]; intros H.
  - reflexivity.
  - cbn [forallb] in H. apply andb_true_iff in H as [Hc Hb].
    apply negb_true_iff in Hc.
    cbn [app replace_from starts_with].
    rewrite N.eqb_sym, Hc. cbn [andb]. f_equal. now apply IH.
Qed.

(** X12.  When the date of an item parses, [published_at] is the ISO
    form of the UTC instant with the offset [+00:00] at its end replaced
    by [Z]; the text of the date itself is not kept. *)
Theorem parsed_date_ends_in_Z (item : Element) (body : str) :
  parsedate_utc_isoformat env (pub_date_raw item) = Ok (body ++ u"+00:00") ->
  forallb (fun c => negb (c =? 43)%N) body = true ->
  field (item_dict env item) (u"published_at") = Some (body ++ u"Z").
Proof.
  intros Hparse Hbody. rewrite item_dict_published_at.
  unfold item_published_at. rewrite Hparse.
  now rewrite (zulu_utc_offset body Hbody).
Qed.

End WithEnv.

Lemma item_text_fields_are_trimmed_witness :
  In (u"title", u"title", [])
     [ (u"title", u"title", []); (u"url", u"link", []);
       (u"source", u"source", u"Unknown source") ]
  /\ or_default (findtext (u"title") item_c) [] = u" Chips "
  /\ exists v pre post,
       field (item_dict offline item_c) (u"title") = Some v
       /\ u" Chips " = pre ++ v ++ post
       /\ strip v = v.
Proof.
  assert (Hin : In (u"title", u"title", [])
     [ (u"title", u"title", []); (u"url", u"link", []);
       (u"source", u"source", u"Unknown source") ]) by (left; reflexivity).
  split; [exact Hin|]. split; [reflexivity|].
  destruct (item_text_fields_are_trimmed offline item_c
              (u"title") (u"title") [] Hin)
    as (_ & v & pre & post & Hv & E & _ & _ & Hs & _).
  exists v, pre, post. split; [exact Hv|]. split; [exact E|exact Hs].
Defined.

Lemma fetch_returns_a_prefix_witness :
  urlopen_read (online sample_rss sample_dumps) feed_url = Ok []
  /\ ET_fromstring (online sample_rss sample_dumps) [] = Ok sample_rss
  /\ find (u"channel") sample_rss = Some sample_channel
  /\ length (findall (u"item") sample_channel) = 4
  /\ (exists news,
        fetch_ai_news (online sample_rss sample_dumps) 3 = Ok news
        /\ length news = 3)
  /\ (exists news,
        fetch_ai_news (online sample_rss sample_dumps) (-1) = Ok news
        /\ length news = 3)
  /\ (exists news,
        fetch_ai_news (online sample_rss sample_dumps) 0 = Ok news
        /\ length news = 0).
Proof.
  split; [reflexivity|]. split; [reflexivity|]. split; [reflexivity|].
  split; [reflexivity|].
  split; [|split].
  - destruct (fetch_returns_a_prefix (online sample_rss sample_dumps)
                [] sample_rss sample_channel 3 eq_refl eq_refl eq_refl)
      as (news & rest & Hf & _ & Hlen & _).
    exists news. split; [exact Hf|]. rewrite Hlen by lia. reflexivity.
  - destruct (fetch_returns_a_prefix (online sample_rss sample_dumps)
                [] sample_rss sample_channel (-1) eq_refl eq_refl eq_refl)
      as (news & rest & Hf & _ & _ & Hlen).
    exists news. split; [exact Hf|]. rewrite Hlen by lia. reflexivity.
  - destruct (fetch_returns_a_prefix (online sample_rss sample_dumps)
                [] sample_rss sample_channel 0 eq_refl eq_refl eq_refl)
      as (news & rest & Hf & _ & Hlen & _).
    exists news. split; [exact Hf|]. rewrite Hlen by lia. reflexivity.
Defined.

Lemma parsed_date_ends_in_Z_witness :
  parsedate_utc_isoformat offline (pub_date_raw item_a)
  = Ok (u"2006-01-02T15:04:05" ++ u"+00:00")
  /\ forallb (fun c => negb (c =? 43)%N) (u"2006-01-02T15:04:05") = true
  /\ field (item_dict offline item_a) (u"published_at")
     = Some (u"2006-01-02T15:04:05" ++ u"Z").
Proof.
  split; [vm_compute; reflexivity|]. split; [vm_compute; reflexivity|].
  apply (parsed_date_ends_in_Z offline item_a (u"2006-01-02T15:04:05")).
  - vm_compute. reflexivity.
  - vm_compute. reflexivity.
Defined.

End FetcherFacts.

(* ================================================================== *)
(** ** The request handler: static files, errors and the output *)
(* ================================================================== *)

Module HandlerFacts.
Import Text Py Xml Summary Server Props Samples MoreProps MoreSamples.
Import TextFacts SummaryFacts ServerFacts.

Local Open Scope py_scope.

Section WithEnv.

Variable env : Env.

(** *** Serving a file *)

Lemma _serve_file_ok (file : list str) (content_type : str)
    (content : bytes) (w : World) :
  read_bytes env file = Ok content ->
  socket_ok_after env (sent w ++ [Status 200]) ->
  _serve_file env file content_type w
  = (Ok tt, mkWorld (sent w ++ full_response content_type content)
                    (clock_reads w)).
Proof.
  intros Hread Hsock.
  pose proof (Hsock (skipn 1 (firstn 3 (full_response content_type content))))
    as Hw1.
  pose proof (Hsock (skipn 1 (firstn 4 (full_response content_type content))))
    as Hw2.
  cbn [full_response firstn skipn] in Hw1, Hw2.
  rewrite <- app_assoc in Hw1, Hw2. cbn [app] in Hw1, Hw2.
  unfold _serve_file, bind, lift. rewrite Hread.
  unfold send_response, send_header, end_headers, wfile_write, socket_write,
    emit_event. cbn [sent clock_reads].
  repeat rewrite <- app_assoc. cbn [app].
  rewrite Hw1. cbn [sent clock_reads].
  repeat rewrite <- app_assoc. cbn [app].
  rewrite Hw2. cbn [sent clock_reads].
  repeat rewrite <- app_assoc. reflexivity.
Qed.

Lemma _serve_file_raises (file : list str) (content_type : str)
    (e : Exn) (w : World) :
  read_bytes env file = Raise e ->
  _serve_file env file content_type w = (Raise e, w).
Proof. intros H. unfold _serve_file, bind, lift. now rewrite H. Qed.

Lemma do_GET_static (self_path : str) (parsed : ParseResult)
    (file : list str) (content_type : str) (w : World) :
  urlparse env self_path = Ok parsed ->
  In (path parsed, file, content_type)
     [ (u"/", [u"templates"; u"index.html"], u"text/html; charset=utf-8");
       (u"/static/styles.css", [u"static"; u"styles.css"],
        u"text/css; charset=utf-8") ] ->
  do_GET env self_path w = _serve_file env file content_type w.
Proof.
  intros Hparse Hin. rewrite (do_GET_route env _ _ w Hparse).
  destruct Hin as [E|[E|[]]]; injection E as <- <- <-; reflexivity.
Qed.

(** X13.  The paths [/] and [/static/styles.css] are answered with the
    bytes of the HTML document and of the stylesheet: status 200, the
    content type of the route, a [Content-Length] that is the length of
    the file, then the file; the clock is not read. *)
Theorem static_routes_serve_the_file
    (self_path : str) (parsed : ParseResult) (file : list str)
    (content_type : str) (content : bytes) (w : World) :
  urlparse env self_path = Ok parsed ->
  In (path parsed, file, content_type)
     [ (u"/", [u"templates"; u"index.html"], u"text/html; charset=utf-8");
       (u"/static/styles.css", [u"static"; u"styles.css"],
        u"text/css; charset=utf-8") ] ->
  read_bytes env file = Ok content ->
  socket_ok_after env (sent w) ->
  do_GET env self_path w
  = (Ok tt, mkWorld (sent w ++ full_response content_type content)
                    (clock_reads w)).
Proof.
  intros Hparse Hin Hread Hsock.
  rewrite (do_GET_static _ _ _ _ w Hparse Hin).
  apply _serve_file_ok; [exact Hread|].
  apply socket_ok_after_app, Hsock.
Qed.

(** X14.  Outside [/api/news] nothing is caught: when [urlparse] raises,
    or when the file of a static route cannot be read, the exception
    leaves [do_GET], and nothing has been written -- no fallback, no error
    page. *)
Theorem errors_outside_api_news_escape
    (self_path : str) (e : Exn) (w : World) :
  (urlparse env self_path = Raise e ->
   do_GET env self_path w = (Raise e, w))
  /\ (forall parsed file content_type,
        urlparse env self_path = Ok parsed ->
        In (path parsed, file, content_type)
           [ (u"/", [u"templates"; u"index.html"],
              u"text/html; charset=utf-8");
             (u"/static/styles.css", [u"static"; u"styles.css"],
              u"text/css; charset=utf-8") ] ->
        read_bytes env file = Raise e ->
        do_GET env self_path w = (Raise e, w)).
Proof.
  split.
  - intros H. unfold do_GET, bind, lift. now rewrite H.
  - intros parsed file content_type Hparse Hin Hread.
    rewrite (do_GET_static _ _ _ _ w Hparse Hin).
    now apply _serve_file_raises.
Qed.

(** *** What is ever written *)

Lemma appends_ret {A} (P : Event -> Prop) (a : A) : appends_only P (ret a).
Proof. intros w. exists []. now rewrite app_nil_r. Qed.

Lemma appends_lift {A} (P : Event -> Prop) (r : result A) :
  appends_only P (lift r).
Proof. intros w. exists []. now rewrite app_nil_r. Qed.

Lemma appends_bind {A B} (P : Event -> Prop) (m : M A) (k : A -> M B) :
  appends_only P m -> (forall a, appends_only P (k a)) ->
  appends_only P (bind m k).
Proof.
  intros Hm Hk w. unfold bind. destruct (Hm w) as (evs & E & Hevs).
  destruct (m w) as [[a|e] w1]; cbn [snd] in *.
  - destruct (Hk a w1) as (evs' & E' & Hevs').
    exists (evs ++ evs'). split; [|now apply Forall_app].
    now rewrite E', E, app_assoc.
  - now exists evs.
Qed.

Lemma appends_try_except {A} (P : Event -> Prop)
    (body : M A) (handler : Exn -> M A) :
  appends_only P body -> (forall e, appends_only P (handler e)) ->
  appends_only P (try_except body handler).
Proof.
  intros Hm Hk w. unfold try_except. destruct (Hm w) as (evs & E & Hevs).
  destruct (body w) as [[a|e] w1]; cbn [snd] in *.
  - now exists evs.
  - destruct (Hk e w1) as (evs' & E' & Hevs').
    exists (evs ++ evs'). split; [|now apply Forall_app].
    now rewrite E', E, app_assoc.
Qed.

Lemma appends_emit_event (P : Event -> Prop) (ev : Event) :
  P ev -> appends_only P (emit_event ev).
Proof. intros H w. exists [ev]. split; [reflexivity|now constructor]. Qed.

Lemma appends_socket_write (P : Event -> Prop) (ev : Event) :
  P ev -> appends_only P (socket_write env ev).
Proof.
  intros H w. unfold socket_write. destruct (socket_fault env (sent w)).
  - exists []. now rewrite app_nil_r.
  - now apply appends_emit_event.
Qed.

Lemma appends_utc_now (P : Event -> Prop) : appends_only P (utc_now env).
Proof. intros w. exists []. cbn. now rewrite app_nil_r. Qed.

Lemma appends_send_json (data : PyVal) :
  appends_only allowed_event (_send_json env data 200).
Proof.
  unfold _send_json. apply appends_bind; [apply appends_lift|]. intros payload.
  repeat (apply appends_bind; [|intros _]);
    first [ apply appends_emit_event | apply appends_socket_write ];
    exact I || reflexivity.
Qed.

Lemma appends_serve_file (file : list str) (content_type : str) :
  appends_only allowed_event (_serve_file env file content_type).
Proof.
  unfold _serve_file. apply appends_bind; [apply appends_lift|]. intros content.
  repeat (apply appends_bind; [|intros _]);
    first [ apply appends_emit_event | apply appends_socket_write ];
    exact I || reflexivity.
Qed.

(** X15.  Whatever the request, the environment and the state of the
    connection, and whether it returns or raises, [do_GET] only adds to
    the output: it never writes a status other than 200, nor an error page
    other than 404 "Not found". *)
Theorem do_GET_writes_only_200_and_404 (self_path : str) :
  appends_only allowed_event (do_GET env self_path).
Proof.
  unfold do_GET. apply appends_bind; [apply appends_lift|]. intros parsed.
  cbv zeta.
  destruct (str_eqb (path parsed) (u"/")); [apply appends_serve_file|].
  destruct (str_eqb (path parsed) (u"/static/styles.css"));
    [apply appends_serve_file|].
  destruct (str_eqb (path parsed) (u"/api/news")).
  - apply appends_try_except.
    + unfold api_news_try.
      apply appends_bind; [apply appends_lift|]. intros items.
      apply appends_bind; [apply appends_utc_now|]. intros generated_at.
      apply appends_bind; [apply appends_lift|]. intros summary.
      apply appends_send_json.
    + intros _. unfold api_news_except, fallback_news.
      apply appends_bind.
      { apply appends_bind; [apply appends_utc_now|]. intros t.
        apply appends_ret. }
      intros items.
      apply appends_bind; [apply appends_utc_now|]. intros generated_at.
      apply appends_send_json.
  - apply appends_socket_write. split; reflexivity.
Qed.

(** *** A request that is answered *)

Lemma api_news_except_cases (w : World) :
  socket_ok_after env (sent w ++ [Status 200]) ->
  (exists payload,
      api_news_except env w
      = (Ok tt, mkWorld (sent w ++ json_response 200 payload)
                        (S (S (clock_reads w)))))
  \/ (exists e w', api_news_except env w = (Raise e, w')).
Proof.
  intros Hsock.
  unfold api_news_except, fallback_news, bind, utc_now, ret.
  cbn [sent clock_reads].
  destruct (json_dumps_utf8 env
              (digest (zulu (utcnow_isoformat env (S (clock_reads w))))
                 UNAVAILABLE
                 (fallback_items (zulu (utcnow_isoformat env (clock_reads w))))))
    as [payload|e] eqn:Hd.
  - left. exists payload.
    now rewrite (_send_json_ok env _ 200 _
                   (mkWorld (sent w) (S (S (clock_reads w)))) Hd Hsock).
  - right. eexists _, _.
    now rewrite (_send_json_raises env _ 200 _ _ Hd).
Qed.

Lemma json_response_is_full (payload : bytes) :
  json_response 200 payload
  = full_response (u"application/json; charset=utf-8") payload.
Proof. unfold json_response, full_response. exact eq_refl. Qed.

(** X16.  On a connection that takes the writes, a request that
    [do_GET] answers without raising gets exactly one response: status
    200, a content type, a [Content-Length] equal to the length of the
    body, and the body -- or the 404 error page.  Nothing partial is left
    behind. *)
Theorem answered_request_gets_one_complete_response
    (self_path : str) (w w' : World) :
  socket_ok_after env (sent w) ->
  do_GET env self_path w = (Ok tt, w') ->
  exists evs, sent w' = sent w ++ evs /\ complete_response evs.
Proof.
  intros Hsock. unfold do_GET, bind, lift.
  destruct (urlparse env self_path) as [parsed|]; [|discriminate].
  cbv zeta.
  assert (Hfile : forall file content_type,
             _serve_file env file content_type w = (Ok tt, w') ->
             exists evs, sent w' = sent w ++ evs /\ complete_response evs).
  { intros file content_type.
    destruct (read_bytes env file) as [content|e] eqn:Hread.
    - rewrite (_serve_file_ok file content_type content w Hread
                 (socket_ok_after_app env _ [Status 200] Hsock)).
      intros H; injection H as <-. eexists. split; [reflexivity|].
      left. now exists content_type, content.
    - now rewrite (_serve_file_raises file content_type e w Hread). }
  destruct (str_eqb (path parsed) (u"/")); [apply Hfile|].
  destruct (str_eqb (path parsed) (u"/static/styles.css")); [apply Hfile|].
  destruct (str_eqb (path parsed) (u"/api/news")).
  - unfold try_except.
    destruct (api_news_try_cases env w Hsock)
      as [(payload & Hok)|(e & w1 & Hr & Hs)].
    + rewrite Hok. intros H; injection H as <-.
      eexists. split; [reflexivity|]. left.
      eexists _, payload. apply json_response_is_full.
    + rewrite Hr.
      destruct (api_news_except_cases w1) as [(payload & Hok)|(e' & w2 & Hx)].
      { rewrite Hs. apply socket_ok_after_app, Hsock. }
      * rewrite Hok. intros H; injection H as <-. cbn [sent]. rewrite Hs.
        eexists. split; [reflexivity|]. left.
        eexists _, payload. apply json_response_is_full.
      * rewrite Hx. discriminate.
  - unfold send_error, socket_write.
    pose proof (Hsock []) as H0. rewrite app_nil_r in H0. rewrite H0.
    intros H; injection H as <-. eexists. split; [reflexivity|now right].
Qed.

(** X17.  When the fetch succeeds, the summary builder cannot raise on
    what it returned, and, the digest serialised and the socket taking the
    writes, the body of the answer is the serialisation of a dictionary
    that holds the fetched items, in their order, under ["items"], their
    summary under ["summary"] and one reading of the clock under
    ["generated_at"] -- not the fallback. *)
Theorem live_digest_is_served
    (self_path : str) (parsed : ParseResult) (items : list Dict)
    (w : World) :
  urlparse env self_path = Ok parsed ->
  path parsed = u"/api/news" ->
  fetch_ai_news env MAX_ITEMS = Ok items ->
  exists summary data,
    build_daily_summary (py_lower env) items = Ok summary
    /\ (items = [] -> summary = NO_NEWS)
    /\ data
       = digest (zulu (utcnow_isoformat env (clock_reads w))) summary items
    /\ carries data (zulu (utcnow_isoformat env (clock_reads w)))
         summary items
    /\ forall payload,
         json_dumps_utf8 env data = Ok payload ->
         socket_ok_after env (sent w) ->
         do_GET env self_path w
         = (Ok tt, mkWorld (sent w ++ json_response 200 payload)
                           (S (clock_reads w))).
Proof.
  intros Hparse Hroute Hfetch.
  pose proof (build_daily_summary_ok (py_lower env) items
                (fetch_ai_news_titles env MAX_ITEMS items Hfetch)) as Hsum.
  eexists _, _. split; [exact Hsum|]. split; [now intros ->|].
  split; [reflexivity|]. split; [apply digest_carries|].
  intros payload Hd Hsock.
  rewrite (do_GET_api_news env _ _ w Hparse Hroute).
  unfold try_except, api_news_try, bind, lift, utc_now.
  rewrite Hfetch, Hsum. cbn [sent clock_reads].
  now rewrite (_send_json_ok env _ 200 _
                 (mkWorld (sent w) (S (clock_reads w))) Hd
                 (socket_ok_after_app env _ [Status 200] Hsock)).
Qed.

(** X18.  A feed that parses but has no channel, or a channel without
    items, is not a failure: the answer is the live digest with an empty
    list of items and the fixed "nothing found" sentence as summary, not
    the fallback digest. *)
Theorem empty_feed_is_served_live
    (self_path : str) (parsed : ParseResult) (raw : bytes) (root : Element)
    (payload : bytes) (w : World) :
  urlparse env self_path = Ok parsed ->
  path parsed = u"/api/news" ->
  urlopen_read env feed_url = Ok raw ->
  ET_fromstring env raw = Ok root ->
  find (u"channel") root = None
  \/ (exists channel,
        find (u"channel") root = Some channel
        /\ findall (u"item") channel = []) ->
  json_dumps_utf8 env
    (digest (zulu (utcnow_isoformat env (clock_reads w))) NO_NEWS [])
    = Ok payload ->
  socket_ok_after env (sent w) ->
  do_GET env self_path w
  = (Ok tt, mkWorld (sent w ++ json_response 200 payload)
                    (S (clock_reads w))).
Proof.
  intros Hparse Hroute Hraw Hroot Hempty Hd Hsock.
  assert (Hfetch : fetch_ai_news env MAX_ITEMS = Ok []).
  { rewrite (fetch_ai_news_parsed env raw root MAX_ITEMS Hraw Hroot).
    unfold items_of_root.
    destruct Hempty as [->|(channel & -> & ->)]; reflexivity. }
  rewrite (do_GET_api_news env _ _ w Hparse Hroute).
  unfold try_except, api_news_try, bind, lift, utc_now.
  rewrite Hfetch. cbn [build_daily_summary sent clock_reads].
  now rewrite (_send_json_ok env _ 200 _
                 (mkWorld (sent w) (S (clock_reads w))) Hd
                 (socket_ok_after_app env _ [Status 200] Hsock)).
Qed.

(** X19.  A socket that fails on the body of the live response, after
    its status line and headers went out, is caught like any failure: the
    [except] block then writes a second status line, new headers and the
    fallback body behind the headers already sent, so the connection
    carries the live [Content-Length] followed by a second response. *)
Theorem broken_body_write_sends_a_second_response
    (self_path : str) (parsed : ParseResult) (items : list Dict)
    (summary : str) (payload : bytes) (e : Exn) (w : World) :
  urlparse env self_path = Ok parsed ->
  path parsed = u"/api/news" ->
  fetch_ai_news env MAX_ITEMS = Ok items ->
  build_daily_summary (py_lower env) items = Ok summary ->
  json_dumps_utf8 env
    (digest (zulu (utcnow_isoformat env (clock_reads w))) summary items)
    = Ok payload ->
  socket_fault env (sent w ++ firstn 3 (json_response 200 payload)) = None ->
  socket_fault env (sent w ++ firstn 4 (json_response 200 payload))
    = Some e ->
  socket_ok_after env
    ((sent w ++ firstn 4 (json_response 200 payload)) ++ [Status 200]) ->
  fallback_serialisable env ->
  exists fallback_payload,
    json_dumps_utf8 env
      (digest (zulu (utcnow_isoformat env (S (S (clock_reads w)))))
              UNAVAILABLE
              (fallback_items
                 (zulu (utcnow_isoformat env (S (clock_reads w))))))
      = Ok fallback_payload
    /\ do_GET env self_path w
       = (Ok tt,
          mkWorld ((sent w ++ firstn 4 (json_response 200 payload))
                   ++ json_response 200 fallback_payload)
                  (S (S (S (clock_reads w))))).
Proof.
  intros Hparse Hroute Hfetch Hsum Hd Hw1 Hw2 Hsock Hser.
  rewrite (do_GET_api_news env _ _ w Hparse Hroute). unfold try_except.
  rewrite (try_failure_raises env w e _
             (fail_write env w items summary payload e
                Hfetch Hsum Hd Hw1 Hw2)).
  destruct (api_news_except_ok env
              (mkWorld (sent w ++ firstn 4 (json_response 200 payload))
                       (S (clock_reads w))) Hser Hsock)
    as (fallback_payload & Hfd & Hex).
  exists fallback_payload. split; [exact Hfd|]. exact Hex.
Qed.

End WithEnv.

Lemma static_routes_serve_the_file_witness :
  urlparse (served sample_rss) (u"/?utm=1")
  = Ok (mkParseResult [] [] (u"/") [] (u"utm=1") [])
  /\ read_bytes (served sample_rss) [u"templates"; u"index.html"] = Ok page
  /\ socket_ok_after (served sample_rss) (sent world0)
  /\ do_GET (served sample_rss) (u"/?utm=1") world0
     = (Ok tt, mkWorld (full_response (u"text/html; charset=utf-8") page) 0).
Proof.
  assert (Hsock : socket_ok_after (served sample_rss) (sent world0))
    by (intros evs; reflexivity).
  split; [reflexivity|]. split; [reflexivity|]. split; [exact Hsock|].
  apply (static_routes_serve_the_file (served sample_rss) (u"/?utm=1")
           (mkParseResult [] [] (u"/") [] (u"utm=1") [])
           [u"templates"; u"index.html"] (u"text/html; charset=utf-8")
           page world0 eq_refl).
  - left. reflexivity.
  - reflexivity.
  - exact Hsock.
Defined.

Lemma errors_outside_api_news_escape_witness :
  urlparse (served sample_rss) (u"//[::1/api/news")
  = Raise (Exception "ValueError")
  /\ do_GET (served sample_rss) (u"//[::1/api/news") world0
     = (Raise (Exception "ValueError"), world0)
  /\ read_bytes (served sample_rss) [u"static"; u"styles.css"]
     = Raise (Exception "FileNotFoundError")
  /\ do_GET (served sample_rss) (u"/static/styles.css") world0
     = (Raise (Exception "FileNotFoundError"), world0).
Proof.
  split; [reflexivity|]. split.
  - apply (proj1 (errors_outside_api_news_escape (served sample_rss)
                    (u"//[::1/api/news") (Exception "ValueError") world0)).
    reflexivity.
  - split; [reflexivity|].
    apply (proj2 (errors_outside_api_news_escape (served sample_rss)
                    (u"/static/styles.css")
                    (Exception "FileNotFoundError") world0)
             (mkParseResult [] [] (u"/static/styles.css") [] [] [])
             [u"static"; u"styles.css"] (u"text/css; charset=utf-8")).
    + reflexivity.
    + right. left. reflexivity.
    + reflexivity.
Defined.

Lemma answered_request_gets_one_complete_response_witness :
  socket_ok_after (served sample_rss) (sent world0)
  /\ do_GET (served sample_rss) (u"/api/news") world0
     = (Ok tt,
        mkWorld (json_response 200
                   (to_bytes
                      (sentence 4
                         (u"model, beats, benchmark, released")))) 1)
  /\ complete_response
       (json_response 200
          (to_bytes
             (sentence 4 (u"model, beats, benchmark, released")))).
Proof.
  assert (Hsock : socket_ok_after (served sample_rss) (sent world0))
    by (intros evs; reflexivity).
  assert (Hget : do_GET (served sample_rss) (u"/api/news") world0
     = (Ok tt,
        mkWorld (json_response 200
                   (to_bytes
                      (sentence 4
                         (u"model, beats, benchmark, released")))) 1))
    by (vm_compute; reflexivity).
  split; [exact Hsock|]. split; [exact Hget|].
  destruct (answered_request_gets_one_complete_response
              (served sample_rss) (u"/api/news") world0 _ Hsock Hget)
    as (evs & E & Hc).
  cbn [sent app] in E. now rewrite E.
Defined.

Lemma live_digest_is_served_witness :
  urlparse (served sample_rss) (u"/api/news")
  = Ok (mkParseResult [] [] (u"/api/news") [] [] [])
  /\ fetch_ai_news (served sample_rss) MAX_ITEMS
     = Ok (map (item_dict (served sample_rss))
             [item_a; item_b; item_c; item_d])
  /\ socket_ok_after (served sample_rss) (sent world0)
  /\ exists summary data payload,
       build_daily_summary ascii_lower
         (map (item_dict (served sample_rss))
            [item_a; item_b; item_c; item_d]) = Ok summary
       /\ entry data (u"items")
          = Some (PyList
                    (map PyDict
                       (map (item_dict (served sample_rss))
                          [item_a; item_b; item_c; item_d])))
       /\ entry data (u"summary") = Some (PyStr summary)
       /\ json_dumps_utf8 (served sample_rss) data = Ok payload
       /\ do_GET (served sample_rss) (u"/api/news") world0
          = (Ok tt, mkWorld (json_response 200 payload) 1).
Proof.
  assert (Hsock : socket_ok_after (served sample_rss) (sent world0))
    by (intros evs; reflexivity).
  assert (Hfetch : fetch_ai_news (served sample_rss) MAX_ITEMS
     = Ok (map (item_dict (served sample_rss))
             [item_a; item_b; item_c; item_d]))
    by (vm_compute; reflexivity).
  split; [reflexivity|]. split; [exact Hfetch|]. split; [exact Hsock|].
  destruct (live_digest_is_served (served sample_rss) (u"/api/news")
              (mkParseResult [] [] (u"/api/news") [] [] []) _ world0
              eq_refl eq_refl Hfetch)
    as (summary & data & Hsum & _ & Hdata & (_ & _ & Hsummary & Hitems)
        & Hget).
  exists summary, data, (to_bytes summary).
  split; [exact Hsum|]. split; [exact Hitems|]. split; [exact Hsummary|].
  assert (Hd : json_dumps_utf8 (served sample_rss) data
               = Ok (to_bytes summary)) by (rewrite Hdata; reflexivity).
  split; [exact Hd|]. exact (Hget (to_bytes summary) Hd Hsock).
Defined.

Lemma empty_feed_is_served_live_witness :
  urlparse (served empty_rss) (u"/api/news")
  = Ok (mkParseResult [] [] (u"/api/news") [] [] [])
  /\ ET_fromstring (served empty_rss) [] = Ok empty_rss
  /\ find (u"channel") empty_rss = None
  /\ socket_ok_after (served empty_rss) (sent world0)
  /\ do_GET (served empty_rss) (u"/api/news") world0
     = (Ok tt, mkWorld (json_response 200 (to_bytes NO_NEWS)) 1).
Proof.
  assert (Hsock : socket_ok_after (served empty_rss) (sent world0))
    by (intros evs; reflexivity).
  split; [reflexivity|]. split; [reflexivity|]. split; [reflexivity|].
  split; [exact Hsock|].
  apply (empty_feed_is_served_live (served empty_rss) (u"/api/news")
           (mkParseResult [] [] (u"/api/news") [] [] []) [] empty_rss
           (to_bytes NO_NEWS) world0 eq_refl eq_refl eq_refl eq_refl).
  - left. reflexivity.
  - reflexivity.
  - exact Hsock.
Defined.

Lemma broken_body_write_sends_a_second_response_witness :
  socket_fault flaky
    (firstn 4 (json_response 200
                 (to_bytes
                    (sentence 4 (u"model, beats, benchmark, released")))))
  = Some (Exception "BrokenPipeError")
  /\ do_GET flaky (u"/api/news") world0
     = (Ok tt,
        mkWorld
          (firstn 4 (json_response 200
                       (to_bytes
                          (sentence 4
                             (u"model, beats, benchmark, released"))))
           ++ json_response 200 (to_bytes UNAVAILABLE))
          3).
Proof.
  split; [reflexivity|].
  assert (Hfetch : fetch_ai_news flaky MAX_ITEMS
     = Ok (map (item_dict flaky) [item_a; item_b; item_c; item_d]))
    by (vm_compute; reflexivity).
  assert (Hsum : build_daily_summary (py_lower flaky)
                   (map (item_dict flaky) [item_a; item_b; item_c; item_d])
                 = Ok (sentence 4 (u"model, beats, benchmark, released")))
    by (vm_compute; reflexivity).
  destruct (broken_body_write_sends_a_second_response flaky (u"/api/news")
              (mkParseResult [] [] (u"/api/news") [] [] [])
              (map (item_dict flaky) [item_a; item_b; item_c; item_d])
              (sentence 4 (u"model, beats, benchmark, released"))
              (to_bytes (sentence 4 (u"model, beats, benchmark, released")))
              (Exception "BrokenPipeError") world0
              eq_refl eq_refl Hfetch Hsum eq_refl eq_refl eq_refl)
    as (fallback_payload & Hfd & Hget).
  - intros evs. reflexivity.
  - intros t0 t1. reflexivity.
  - cbn [sample_dumps json_dumps_utf8 flaky digest] in Hfd.
    injection Hfd as <-. exact Hget.
Defined.

End HandlerFacts.
